(** * Bedrock gateway: a shallow embedding of the translation core

    The development follows the Python sources of the gateway:

    - [Py]      : the fragments of the Python runtime the code relies on
                  (truthiness, [in], subscripts, [dict.get], exceptions);
    - [Json]    : values as [json.loads] builds them and [json.dumps];
    - [Gateway] : [src/gateway/server.py] (model mapper, request and
                  response translators, stream translator);
    - [Auth]    : [src/auth/aws_auth.py] (credential resolver);
    - [Tracker] : [src/monitoring/tracker.py] (usage and cost tracker).

    Strings are sequences of code points below 256 ([Stdlib]'s [string]);
    Python [int] is [Z]; Python [float] is the kernel's binary64 [float]. *)

From Stdlib Require Import ZArith String Ascii List Lia Bool.
From Stdlib Require Import Floats.PrimFloat Numbers.Cyclic.Int63.Uint63.
From Stdlib Require Floats.FloatOps.
From stdpp Require Import base option list gmap strings pretty.

Import ListNotations.
Local Open Scope string_scope.
Local Open Scope Z_scope.
Local Open Scope list_scope.

(* ===================================================================== *)
(** ** Python runtime fragments *)
(* ===================================================================== *)

Module Py.

(** The characters that cannot be typed inside a string literal. *)
Definition dquote : ascii := "034"%char.
Definition backslash : ascii := "092"%char.
Definition newline : ascii := "010"%char.

Definition quoted (s : string) : string :=
  String dquote (s +:+ String dquote EmptyString).

(** Exceptions: the class that [except] clauses test, and [str(e)].
    [raise C(msg)] for a built-in class [C] builds [PyExc C msg]; the
    classes of botocore are flat here ([ClientError] stands for it and its
    service subclasses). *)
Inductive exc_class :=
| ClientError
| NoCredentialsError
| ValueError
| TypeError
| KeyError
| AttributeError
| JSONDecodeError
| OtherError (name : string).

Record pyexc := PyExc { exc_type : exc_class; exc_str : string }.

Definition exc_class_eqb (a b : exc_class) : bool :=
  match a, b with
  | ClientError, ClientError
  | NoCredentialsError, NoCredentialsError
  | ValueError, ValueError
  | TypeError, TypeError
  | KeyError, KeyError
  | AttributeError, AttributeError
  | JSONDecodeError, JSONDecodeError => true
  | OtherError n, OtherError m => String.eqb n m
  | _, _ => false
  end.

(** A computation that either raises or returns. *)
Definition result (A : Type) : Type := pyexc + A.
Definition ret {A} (a : A) : result A := inr a.
Definition raise {A} (e : pyexc) : result A := inl e.
Definition bind {A B} (m : result A) (k : A -> result B) : result B :=
  match m with
  | inl e => inl e
  | inr a => k a
  end.

(** [bool(s)] for a [str]: the empty string is falsy. *)
Definition str_truthy (s : string) : bool :=
  match s with
  | EmptyString => false
  | String _ _ => true
  end.

(** [bool(x)] for an [Optional[str]]: [None] and [""] are falsy. *)
Definition opt_str_truthy (o : option string) : bool :=
  match o with
  | None => false
  | Some s => str_truthy s
  end.

(** [needle in hay] for two [str]: substring test. *)
Fixpoint str_contains (needle hay : string) : bool :=
  String.prefix needle hay ||
  match hay with
  | EmptyString => false
  | String _ rest => str_contains needle rest
  end.

(** [str(n)] for an [int]. *)
Definition str_of_int (n : Z) : string := pretty n.

End Py.

(* ===================================================================== *)
(** ** JSON values, [json.dumps] and the dynamic operations on them *)
(* ===================================================================== *)

Module Json.
Import Py.

#[local] Set Warnings "-register-all".

(** A Python value as [json.loads] returns it and [json.dumps] accepts it;
    a dict keeps its items in insertion order. *)
Inductive json :=
| JNull
| JBool (b : bool)
| JInt (n : Z)
| JFloat (f : float)
| JStr (s : string)
| JArr (xs : list json)
| JObj (items : list (string * json)).

(** [type(x).__name__], as error messages print it. *)
Definition type_name (j : json) : string :=
  match j with
  | JNull => "NoneType"
  | JBool _ => "bool"
  | JInt _ => "int"
  | JFloat _ => "float"
  | JStr _ => "str"
  | JArr _ => "list"
  | JObj _ => "dict"
  end.

(** [d.get(key)] on the items of a dict. *)
Fixpoint lookup_item (key : string) (items : list (string * json)) : option json :=
  match items with
  | [] => None
  | (k, v) :: rest => if String.eqb k key then Some v else lookup_item key rest
  end.

(** [x == s] where [s] is a [str]. *)
Definition eq_str (x : json) (s : string) : bool :=
  match x with
  | JStr t => String.eqb t s
  | _ => false
  end.

(** [key in x] for a string [key] (messages as CPython 3.11 words them). *)
Definition py_in (key : string) (x : json) : result bool :=
  match x with
  | JObj items => ret (match lookup_item key items with Some _ => true | None => false end)
  | JArr xs => ret (existsb (fun y => eq_str y key) xs)
  | JStr s => ret (str_contains key s)
  | _ => raise (PyExc TypeError
                  ("argument of type '" +:+ type_name x +:+ "' is not iterable"))
  end.

(** [x[key]] for a string [key]. *)
Definition py_getitem (x : json) (key : string) : result json :=
  match x with
  | JObj items =>
      match lookup_item key items with
      | Some v => ret v
      | None => raise (PyExc KeyError ("'" +:+ key +:+ "'"))
      end
  | JArr _ => raise (PyExc TypeError "list indices must be integers or slices, not str")
  | JStr _ => raise (PyExc TypeError "string indices must be integers, not 'str'")
  | _ => raise (PyExc TypeError
                  ("'" +:+ type_name x +:+ "' object is not subscriptable"))
  end.

(** [x.get(key)]: only a dict has the method; a missing key gives [None]. *)
Definition py_get (x : json) (key : string) : result json :=
  match x with
  | JObj items => ret (default JNull (lookup_item key items))
  | _ => raise (PyExc AttributeError
                  ("'" +:+ type_name x +:+ "' object has no attribute 'get'"))
  end.

(** *** [json.dumps] with its defaults ([ensure_ascii], [", "] and [": "]) *)

Definition hex_digit (n : N) : ascii :=
  match n with
  | 0 => "0" | 1 => "1" | 2 => "2" | 3 => "3" | 4 => "4" | 5 => "5"
  | 6 => "6" | 7 => "7" | 8 => "8" | 9 => "9" | 10 => "a" | 11 => "b"
  | 12 => "c" | 13 => "d" | 14 => "e" | _ => "f"
  end%N%char.

Definition escape_char (c : ascii) : string :=
  let n := N_of_ascii c in
  if Ascii.eqb c dquote then String backslash (String dquote "")
  else if Ascii.eqb c backslash then String backslash (String backslash "")
  else if (n =? 10)%N then String backslash "n"
  else if (n =? 13)%N then String backslash "r"
  else if (n =? 9)%N then String backslash "t"
  else if (n =? 8)%N then String backslash "b"
  else if (n =? 12)%N then String backslash "f"
  else if ((n <? 32) || (126 <? n))%N
       then String backslash
              (String "u" (String "0" (String "0"
                 (String (hex_digit (n / 16)) (String (hex_digit (n mod 16)) "")))))
  else String c "".

Fixpoint escape_string (s : string) : string :=
  match s with
  | EmptyString => EmptyString
  | String c rest => escape_char c +:+ escape_string rest
  end.

Definition encode_string (s : string) : string := quoted (escape_string s).

(** [float.__repr__] (shortest round-trip decimal) is not modelled: [dumps]
    takes it as the parameter [float_repr]. *)
Fixpoint dumps (float_repr : float -> string) (j : json) : string :=
  match j with
  | JNull => "null"
  | JBool true => "true"
  | JBool false => "false"
  | JInt n => str_of_int n
  | JFloat f => float_repr f
  | JStr s => encode_string s
  | JArr xs =>
      "[" +:+
      (fix elements (l : list json) : string :=
         match l with
         | [] => ""
         | x :: l' =>
             dumps float_repr x +:+ match l' with [] => "" | _ :: _ => ", " +:+ elements l' end
         end) xs
      +:+ "]"
  | JObj items =>
      "{" +:+
      (fix members (l : list (string * json)) : string :=
         match l with
         | [] => ""
         | (k, v) :: l' =>
             encode_string k +:+ ": " +:+ dumps float_repr v +:+
             match l' with [] => "" | _ :: _ => ", " +:+ members l' end
         end) items
      +:+ "}"
  end.

End Json.

(* ===================================================================== *)
(** ** The gateway: [src/gateway/server.py] *)
(* ===================================================================== *)

Module Gateway.
Import Py Json.

(** *** Model name mapper *)

Definition sonnet_id : string := "anthropic.claude-sonnet-4-5-20250929-v1:0".
Definition haiku_id : string := "anthropic.claude-haiku-4-5-20251001-v1:0".

(** The [model_mapping] dict literal of [map_model_name]. *)
Definition model_mapping : gmap string string :=
  <["claude-sonnet-4.5" := sonnet_id]>
  (<["claude-haiku-4.5" := haiku_id]>
  (<["gpt-4" := sonnet_id]>
  (<["gpt-3.5-turbo" := haiku_id]> ∅))).

(** The namespace marker of a provider-native id. *)
Definition namespace_marker : string := "anthropic.claude".

Definition map_model_name (openai_model : string) : string :=
  if str_contains namespace_marker openai_model then openai_model
  else default sonnet_id (model_mapping !! openai_model).

(** *** Request models *)

(** [ChatMessage]: both fields are plain [str]; the role is not restricted. *)
Record ChatMessage := { role : string; content : string }.

(** [ChatCompletionRequest]; an [Optional] field is [None] when absent. *)
Record ChatCompletionRequest := {
  model : string;
  messages : list ChatMessage;
  temperature : float;
  max_tokens : option Z;
  stream : bool;
  top_p : option float;
  stop : option (list string)
}.

(** *** Request translator: [convert_messages] *)

(** The two locals the loop of [convert_messages] updates. *)
Record convert_state := {
  bedrock_messages : list json;
  system_message : option string
}.

Definition convert_init : convert_state :=
  {| bedrock_messages := []; system_message := None |}.

(** One iteration of [for msg in messages]. *)
Definition convert_step (st : convert_state) (msg : ChatMessage) : convert_state :=
  if String.eqb (role msg) "system" then
    {| bedrock_messages := bedrock_messages st;
       system_message := Some (content msg) |}
  else if String.eqb (role msg) "user" || String.eqb (role msg) "assistant" then
    {| bedrock_messages :=
         bedrock_messages st ++
         [JObj [("role", JStr (role msg)); ("content", JStr (content msg))]];
       system_message := system_message st |}
  else st.

Definition convert_loop (msgs : list ChatMessage) : convert_state :=
  fold_left convert_step msgs convert_init.

(** The local [result] dict, built after the loop. *)
Definition convert_result (st : convert_state) : json :=
  JObj (("messages", JArr (bedrock_messages st)) ::
        match system_message st with
        | Some s => if str_truthy s then [("system", JStr s)] else []
        | None => []
        end).

(** [convert_messages] builds [result] and returns [bedrock_messages]. *)
Definition convert_messages (msgs : list ChatMessage) : list json :=
  let st := convert_loop msgs in
  let result := convert_result st in
  bedrock_messages st.

(** *** Request translation inside [chat_completions] *)

(** [bool(x)] for a [float]: zero (of either sign) is falsy. *)
Definition float_truthy (x : float) : bool := negb (PrimFloat.eqb x 0%float).

(** [request.max_tokens or 4096]. *)
Definition max_tokens_or_default (m : option Z) : Z :=
  match m with
  | Some n => if n =? 0 then 4096 else n
  | None => 4096
  end.

(** The local [bedrock_request] of [chat_completions], after the two
    conditional assignments. *)
Definition bedrock_request (request : ChatCompletionRequest) : json :=
  JObj ([ ("anthropic_version", JStr "bedrock-2023-05-31");
          ("max_tokens", JInt (max_tokens_or_default (max_tokens request)));
          ("messages", JArr (convert_messages (messages request)));
          ("temperature", JFloat (temperature request)) ]
        ++ match top_p request with
           | Some p => if float_truthy p then [("top_p", JFloat p)] else []
           | None => []
           end
        ++ match stop request with
           | Some (s :: l) => [("stop_sequences", JArr (map JStr (s :: l)))]
           | Some [] => []
           | None => []
           end).

(** *** Response translator: [convert_to_openai_format] *)

(** A content block of the provider response: [block["type"]] and, when
    the block has one, [block["text"]]. *)
Record content_block := { block_type : string; block_text : option string }.

(** The provider response, as far as the translator reads it: the
    ["content"] list and the ["usage"] dict of token counts. *)
Record bedrock_response := {
  resp_content : option (list content_block);
  resp_usage : option (gmap string Z)
}.

Record choice := {
  choice_index : Z;
  message_role : string;
  message_content : string;
  finish_reason : string
}.

Record ChatCompletionResponse := {
  resp_id : string;
  resp_object : string;
  resp_created : Z;
  resp_model : string;
  choices : list choice;
  usage : option (gmap string Z)
}.

(** The loop [for block in bedrock_response["content"]]. *)
Fixpoint concat_text (acc : string) (blocks : list content_block) : result string :=
  match blocks with
  | [] => ret acc
  | block :: rest =>
      if String.eqb (block_type block) "text" then
        match block_text block with
        | Some t => concat_text (acc +:+ t) rest
        | None => raise (PyExc KeyError "'text'")
        end
      else concat_text acc rest
  end.

(** [bedrock_response.get("usage", {}).get(key, 0)]. *)
Definition usage_get (r : bedrock_response) (key : string) : Z :=
  default 0 (default ∅ (resp_usage r) !! key).

(** [now n] is [int(datetime.now().timestamp())] at the [n]-th reading of
    the clock; [t] counts the readings made so far. *)
Definition convert_to_openai_format (now : nat -> Z) (t : nat)
    (r : bedrock_response) (model_id original_model : string)
    : result ChatCompletionResponse :=
  bind (match resp_content r with
        | Some blocks => concat_text "" blocks
        | None => ret ""
        end)
    (fun text =>
       ret {| resp_id := "chatcmpl-" +:+ str_of_int (now t);
              resp_object := "chat.completion";
              resp_created := now (S t);
              resp_model := original_model;
              choices := [ {| choice_index := 0;
                              message_role := "assistant";
                              message_content := text;
                              finish_reason := "stop" |} ];
              usage := Some (<["prompt_tokens" := usage_get r "input_tokens"]>
                            (<["completion_tokens" := usage_get r "output_tokens"]>
                            (<["total_tokens" :=
                                 usage_get r "input_tokens" + usage_get r "output_tokens"]>
                             ∅))) |}).

(** *** Stream translator: [stream_bedrock_response] *)

(** An event of the provider stream, given by what the loop reads of it:
    no ["chunk"] key, or the outcome of
    [json.loads(event["chunk"]["bytes"])]. *)
Inductive event :=
| EvNoChunk
| EvChunk (decoded : result json).

(** The iterable [response["body"]]: the events it yields, then either
    exhaustion or an exception raised by the iterator.  A body that is
    there is truthy (an event stream object, not a container), so
    [if not stream] holds for [None] only. *)
Record event_stream := {
  events : list event;
  failure : option pyexc
}.

(** How one iteration of the loop ends. *)
Inductive outcome :=
| Continue
| Break
| Raise (e : pyexc).

Section Stream.

Variable float_repr : float -> string.
Variable now : nat -> Z.
Variable model_id : string.

Definition sse (payload : string) : string :=
  "data: " +:+ payload +:+ String newline (String newline "").

Definition done_frame : string := sse "[DONE]".

Definition error_frame (msg : string) : string :=
  sse (dumps float_repr (JObj [("error", JStr msg)])).

(** The frame for one text delta, the clock read at [t] and [S t]. *)
Definition content_frame (t : nat) (text : json) : string :=
  sse (dumps float_repr
         (JObj [ ("id", JStr ("chatcmpl-" +:+ str_of_int (now t)));
                 ("object", JStr "chat.completion.chunk");
                 ("created", JInt (now (S t)));
                 ("model", JStr model_id);
                 ("choices",
                  JArr [ JObj [ ("index", JInt 0);
                                ("delta", JObj [("content", text)]);
                                ("finish_reason", JNull) ] ]) ])).

(** The [if "delta" in chunk:] block: the frames it yields and the clock. *)
Definition delta_part (t : nat) (chunk : json) : result (list string * nat) :=
  bind (py_in "delta" chunk) (fun has_delta =>
  if has_delta then
    bind (py_getitem chunk "delta") (fun delta =>
    bind (py_in "text" delta) (fun has_text =>
    if has_text then
      bind (py_getitem delta "text") (fun text =>
      ret ([content_frame t text], S (S t)))
    else ret ([], t)))
  else ret ([], t)).

(** The body of [for event in stream]: frames yielded, clock, outcome. *)
Definition handle_event (t : nat) (ev : event) : list string * nat * outcome :=
  match ev with
  | EvNoChunk => ([], t, Continue)
  | EvChunk (inl e) => ([], t, Raise e)
  | EvChunk (inr chunk) =>
      match delta_part t chunk with
      | inl e => ([], t, Raise e)
      | inr (frames, t') =>
          match py_get chunk "type" with
          | inl e => (frames, t', Raise e)
          | inr ty =>
              if eq_str ty "message_stop" then (frames, t', Break)
              else (frames, t', Continue)
          end
      end
  end.

(** The loop [for event in stream]: the frames it yields, the number of
    events taken from the stream, and the exception that leaves it, if any. *)
Fixpoint stream_loop (t : nat) (evs : list event) (fail : option pyexc)
    : list string * nat * option pyexc :=
  match evs with
  | [] => ([], 0%nat, fail)
  | ev :: rest =>
      match handle_event t ev with
      | (frames, t', Continue) =>
          let '(frames', n, raised) := stream_loop t' rest fail in
          ((frames ++ frames')%list, S n, raised)
      | (frames, _, Break) => ((frames ++ [done_frame])%list, 1%nat, None)
      | (frames, _, Raise e) => (frames, 1%nat, Some e)
      end
  end.

(** The [try] block.  [client modelId body] is
    [client.invoke_model_with_response_stream(modelId=..., body=...)]
    followed by [response.get("body")]. *)
Definition try_body
    (client : string -> string -> result (option event_stream))
    (request_body : json) : list string * nat * option pyexc :=
  match client model_id (dumps float_repr request_body) with
  | inl e => ([], 0%nat, Some e)
  | inr None => ([error_frame "No response stream"], 0%nat, None)
  | inr (Some s) => stream_loop 0 (events s) (failure s)
  end.

(** The generator run to exhaustion: the [try] block, then the [except]
    clause when an exception left it. *)
Definition stream_run
    (client : string -> string -> result (option event_stream))
    (request_body : json) : list string * nat :=
  let '(frames, n, raised) := try_body client request_body in
  ((frames ++ match raised with
              | Some e => [error_frame (exc_str e)]
              | None => []
              end)%list, n).

Definition stream_bedrock_response
    (client : string -> string -> result (option event_stream))
    (request_body : json) : list string :=
  fst (stream_run client request_body).

(** The number of stream events the generator took. *)
Definition events_consumed
    (client : string -> string -> result (option event_stream))
    (request_body : json) : nat :=
  snd (stream_run client request_body).

(** Frame classes, read off the wire text. *)
Definition is_done_frame (f : string) : bool := String.eqb f done_frame.

Definition is_error_frame (f : string) : bool :=
  String.prefix ("data: {" +:+ quoted "error" +:+ ": ") f.

Definition is_content_frame (f : string) : bool :=
  String.prefix ("data: {" +:+ quoted "id" +:+ ": ") f.

Definition count (p : string -> bool) (l : list string) : nat :=
  length (List.filter p l).

(** Events as the provider sends them: the chunk decodes to a JSON object
    whose ["delta"], when it has one, is a JSON object. *)
Definition well_formed (ev : event) : bool :=
  match ev with
  | EvNoChunk => true
  | EvChunk (inr (JObj items)) =>
      match lookup_item "delta" items with
      | None | Some (JObj _) => true
      | Some _ => false
      end
  | EvChunk _ => false
  end.

(** The event whose chunk has type ["message_stop"]. *)
Definition is_message_stop (ev : event) : bool :=
  match ev with
  | EvChunk (inr (JObj items)) =>
      eq_str (default JNull (lookup_item "type" items)) "message_stop"
  | _ => false
  end.

End Stream.

(** *** The handler [chat_completions] *)

(** The Bedrock runtime client as the handler uses it: [invoke_model]
    together with [json.loads(response["body"].read())], and the
    streaming call together with [response.get("body")]. *)
Record bedrock_client := {
  invoke_model : string -> string -> result bedrock_response;
  invoke_model_with_response_stream : string -> string -> result (option event_stream)
}.

(** What the handler gives back to the framework. *)
Inductive http_result :=
| StreamingResponse (frames : list string)
| Completion (r : ChatCompletionResponse)
| HTTPException (status_code : Z) (detail : string).

(** [authenticator] is [None] before initialisation; otherwise it is
    given by the outcome of its [get_bedrock_client()]. *)
Definition chat_completions (float_repr : float -> string) (now : nat -> Z)
    (authenticator : option (result bedrock_client))
    (request : ChatCompletionRequest) : http_result :=
  match authenticator with
  | None => HTTPException 500 "Authenticator not initialized"
  | Some get_bedrock_client =>
      let model_id := map_model_name (model request) in
      let body := bedrock_request request in
      match get_bedrock_client with
      | inl e => HTTPException 500 (exc_str e)
      | inr client =>
          if stream request then
            StreamingResponse
              (stream_bedrock_response float_repr now model_id
                 (invoke_model_with_response_stream client) body)
          else
            match bind (invoke_model client model_id (dumps float_repr body))
                       (fun response_body =>
                          convert_to_openai_format now 0 response_body
                            model_id (model request))
            with
            | inl e => HTTPException 500 (exc_str e)
            | inr r => Completion r
            end
      end
  end.

End Gateway.

(* ===================================================================== *)
(** ** The credential resolver: [src/auth/aws_auth.py] *)
(* ===================================================================== *)

Module Auth.
Import Py.

Inductive AuthMethod := AWS_CLI | ENV_VARS | SSO_PROFILE | BEDROCK_API_KEY.

(** The keyword arguments a [boto3.Session] is built from. *)
Record Session := {
  profile_name : option string;
  aws_access_key_id : option string;
  aws_secret_access_key : option string;
  region_name : string
}.

(** What lies outside the process: [os.environ], whether
    [boto3.Session(...)] raises for given arguments, and the outcome of
    the [n]-th [session.client("sts").get_caller_identity()]. *)
Record world := {
  environ : gmap string string;
  session_error : Session -> option pyexc;
  get_caller_identity : nat -> Session -> result (gmap string string)
}.

(** [os.getenv(key)]. *)
Definition getenv (w : world) (key : string) : option string := environ w !! key.

(** The fields of an [AWSAuthenticator]. *)
Record AWSAuthenticator := {
  region : string;
  _session : option Session;
  _method : option AuthMethod
}.

(** The object together with the sessions on which the identity check
    has been called so far, oldest first. *)
Record state := {
  self : AWSAuthenticator;
  sts_calls : list Session
}.

(** [AWSAuthenticator(region)]. *)
Definition init (r : string) : state :=
  {| self := {| region := r; _session := None; _method := None |};
     sts_calls := [] |}.

(** Methods: state in, outcome and state out; a raise keeps the state
    reached so far. *)
Definition M (A : Type) : Type := state -> result A * state.

Definition mret {A} (a : A) : M A := fun s => (inr a, s).
Definition mraise {A} (e : pyexc) : M A := fun s => (inl e, s).
Definition mbind {A B} (m : M A) (k : A -> M B) : M B :=
  fun s => match m s with
           | (inl e, s') => (inl e, s')
           | (inr a, s') => k a s'
           end.
Definition mget : M AWSAuthenticator := fun s => (inr (self s), s).
Definition mput (a : AWSAuthenticator) : M unit :=
  fun s => (inr tt, {| self := a; sts_calls := sts_calls s |}).

(** [try: m  except cls: raise e']; any other exception passes through. *)
Definition except_raise {A} (m : M A) (cls : exc_class) (e' : pyexc -> pyexc) : M A :=
  fun s => match m s with
           | (inl e, s') =>
               if exc_class_eqb (exc_type e) cls then (inl (e' e), s') else (inl e, s')
           | r => r
           end.

(** [NoCredentialsError(msg)] as the sources write it, with the message
    as a positional argument.  The constructors of botocore's exceptions
    take keyword arguments only, so the call itself raises [TypeError]
    and no [NoCredentialsError] is built: this is the exception that
    leaves [raise NoCredentialsError(msg)]. *)
Definition NoCredentialsError_positional (msg : string) : pyexc :=
  PyExc TypeError
    "BotoCoreError.__init__() takes 1 positional argument but 2 were given".

Notation "'do' x <- m ; k" := (mbind m (fun x => k))
  (at level 10, x name, m at level 100, k at level 200).
Notation "m ;; k" := (mbind m (fun _ => k))
  (at level 100, k at level 200, right associativity).

Section Resolver.

Variable w : world.

(** The constructor [boto3.Session], called with keyword arguments. *)
Definition new_session (args : Session) : M Session :=
  match session_error w args with
  | Some e => mraise e
  | None => mret args
  end.

(** [session.client("sts").get_caller_identity()]. *)
Definition sts_identity (sess : Session) : M (gmap string string) :=
  fun s => (get_caller_identity w (length (sts_calls s)) sess,
            {| self := self s; sts_calls := sts_calls s ++ [sess] |}).

Definition _detect_auth_method : AuthMethod :=
  if opt_str_truthy (getenv w "AWS_BEARER_TOKEN_BEDROCK") then BEDROCK_API_KEY
  else if opt_str_truthy (getenv w "AWS_PROFILE") then SSO_PROFILE
  else if opt_str_truthy (getenv w "AWS_ACCESS_KEY_ID")
          && opt_str_truthy (getenv w "AWS_SECRET_ACCESS_KEY") then ENV_VARS
  else AWS_CLI.

Definition _authenticate_with_cli : M Session :=
  except_raise
    (do a <- mget;
     do session <- new_session {| profile_name := None; aws_access_key_id := None;
                                  aws_secret_access_key := None;
                                  region_name := region a |};
     sts_identity session ;;
     mret session)
    NoCredentialsError
    (fun _ => NoCredentialsError_positional
       "AWS CLI credentials not found. Run 'aws configure' or set environment variables.").

Definition _authenticate_with_env_vars : M Session :=
  do a <- mget;
  let access_key := getenv w "AWS_ACCESS_KEY_ID" in
  let secret_key := getenv w "AWS_SECRET_ACCESS_KEY" in
  let region := default (region a) (getenv w "AWS_REGION") in
  if negb (opt_str_truthy access_key) || negb (opt_str_truthy secret_key) then
    mraise (NoCredentialsError_positional
              "AWS_ACCESS_KEY_ID and AWS_SECRET_ACCESS_KEY must be set")
  else
    new_session {| profile_name := None; aws_access_key_id := access_key;
                   aws_secret_access_key := secret_key; region_name := region |}.

Definition _authenticate_with_profile : M Session :=
  do a <- mget;
  match getenv w "AWS_PROFILE" with
  | Some (String c p) =>
      let profile := String c p in
      except_raise
        (do session <- new_session {| profile_name := Some profile;
                                      aws_access_key_id := None;
                                      aws_secret_access_key := None;
                                      region_name := region a |};
         sts_identity session ;;
         mret session)
        NoCredentialsError
        (fun _ => NoCredentialsError_positional
           ("Profile '" +:+ profile +:+ "' not found or credentials expired. "
            +:+ "Run 'aws sso login' if using SSO."))
  | _ => mraise (PyExc ValueError "AWS_PROFILE environment variable not set")
  end.

Definition _authenticate_with_api_key : M Session :=
  if opt_str_truthy (getenv w "AWS_BEARER_TOKEN_BEDROCK") then _authenticate_with_cli
  else mraise (PyExc ValueError "AWS_BEARER_TOKEN_BEDROCK environment variable not set").

Definition _verify_credentials : M unit :=
  do a <- mget;
  match _session a with
  | None => mraise (PyExc ValueError "Session not initialized")
  | Some session =>
      except_raise
        (sts_identity session ;; mret tt)
        ClientError
        (fun e => NoCredentialsError_positional ("Invalid credentials: " +:+ exc_str e))
  end.

(** The first half of [authenticate]: choose the method, run its branch
    and store the session in [self._session]. *)
Definition build_session (method : option AuthMethod) : M Session :=
  do a <- mget;
  let m := match method with Some m => m | None => _detect_auth_method end in
  mput {| region := region a; _session := _session a; _method := Some m |} ;;
  do session <- match m with
                | BEDROCK_API_KEY => _authenticate_with_api_key
                | SSO_PROFILE => _authenticate_with_profile
                | ENV_VARS => _authenticate_with_env_vars
                | AWS_CLI => _authenticate_with_cli
                end;
  do a' <- mget;
  mput {| region := region a'; _session := Some session; _method := _method a' |} ;;
  mret session.

Definition authenticate (method : option AuthMethod) : M Session :=
  do session <- build_session method;
  _verify_credentials ;;
  mret session.

End Resolver.

End Auth.

(* ===================================================================== *)
(** ** The usage tracker: [src/monitoring/tracker.py] *)
(* ===================================================================== *)

Module Tracker.
Import Py.

(** The least magnitude that rounds to [2^1024], one step above the
    largest binary64: halfway between the two, a tie that goes up. *)
Definition overflow_threshold : Z := 2 ^ 1024 - 2 ^ 970.

(** [num / den] rounded to the nearest integer, ties to even, for
    [0 <= num] and [0 < den]. *)
Definition div_half_even (num den : Z) : Z :=
  let q := num / den in
  let r := num mod den in
  if (den <? 2 * r) || ((den =? 2 * r) && Z.odd q) then q + 1 else q.

(** [a / b] for two [int] of any size: the exact quotient rounded once
    to binary64, ties to even.  A zero divisor raises
    [ZeroDivisionError]; a quotient that rounds beyond the largest
    binary64 raises [OverflowError]; one below the least subnormal gives
    a signed zero.  The quotient is rounded at the unit [2^s] of its
    binade ([s] is at least [-1074], the unit of the subnormals), which
    leaves an integer of at most 53 bits to scale by [2^s]. *)
Definition int_true_div (a b : Z) : result float :=
  if b =? 0 then raise (PyExc (OtherError "ZeroDivisionError") "division by zero")
  else
    let negate := xorb (a <? 0) (b <? 0) in
    let A := Z.abs a in
    let B := Z.abs b in
    if A =? 0 then ret (if negate then (-0)%float else 0%float)
    else if overflow_threshold * B <=? A then
      raise (PyExc (OtherError "OverflowError")
               "integer division result too large for a float")
    else
      let d := Z.log2 A - Z.log2 B in
      let e := if (if 0 <=? d then B * 2 ^ d <=? A else B <=? A * 2 ^ (- d))
               then d else d - 1 in
      let s := Z.max (e - 52) (-1074) in
      let m := if 0 <=? s then div_half_even A (B * 2 ^ s)
               else div_half_even (A * 2 ^ (- s)) B in
      let x := FloatOps.Z.ldexp (PrimFloat.of_uint63 (Uint63.of_Z m)) s in
      ret (if negate then PrimFloat.opp x else x).

(** [bool(x)] for a [float]. *)
Definition float_truthy (x : float) : bool := negb (PrimFloat.eqb x 0%float).

Record TokenUsage := {
  input_tokens : Z;
  output_tokens : Z;
  total_tokens : Z;
  usage_timestamp : string
}.

Record CostMetrics := {
  model_id : string;
  input_cost : float;
  output_cost : float;
  total_cost : float;
  cost_timestamp : string
}.

(** [TokenUsage(input_tokens=i, output_tokens=o)] with [__post_init__];
    [utcnow] is [datetime.utcnow().isoformat()] at this point. *)
Definition new_TokenUsage (utcnow : string) (i o : Z) : TokenUsage :=
  let timestamp := "" in
  let total := 0 in
  {| input_tokens := i;
     output_tokens := o;
     total_tokens := if total =? 0 then i + o else total;
     usage_timestamp := if str_truthy timestamp then timestamp else utcnow |}.

(** [CostMetrics(model_id=..., input_cost=..., output_cost=..., total_cost=...)]
    with [__post_init__]. *)
Definition new_CostMetrics (utcnow : string) (m : string) (ic oc tc : float)
    : CostMetrics :=
  let timestamp := "" in
  {| model_id := m;
     input_cost := ic;
     output_cost := oc;
     total_cost := if float_truthy tc then tc else PrimFloat.add ic oc;
     cost_timestamp := if str_truthy timestamp then timestamp else utcnow |}.

Definition sonnet_id : string := "anthropic.claude-sonnet-4-5-20250929-v1:0".
Definition haiku_id : string := "anthropic.claude-haiku-4-5-20251001-v1:0".

(** The class attribute [PRICING]: dollars per million tokens. *)
Definition PRICING : gmap string (gmap string float) :=
  <[sonnet_id := <["input" := 3.00%float]> (<["output" := 15.00%float]> ∅)]>
  (<[haiku_id := <["input" := 0.25%float]> (<["output" := 1.25%float]> ∅)]> ∅).

(** [d[key]]: a missing key raises [KeyError]. *)
Definition subscript {V} (d : gmap string V) (key : string) : result V :=
  match d !! key with
  | Some v => ret v
  | None => raise (PyExc KeyError ("'" +:+ key +:+ "'"))
  end.

Record cost := {
  cost_input : float;
  cost_output : float;
  cost_total : float
}.

Definition _calculate_cost (model : string) (input output : Z) : result cost :=
  bind (subscript PRICING haiku_id) (fun fallback =>
  let pricing := default fallback (PRICING !! model) in
  bind (int_true_div input 1000000) (fun per_million_in =>
  bind (subscript pricing "input") (fun price_in =>
  let ic := PrimFloat.mul per_million_in price_in in
  bind (int_true_div output 1000000) (fun per_million_out =>
  bind (subscript pricing "output") (fun price_out =>
  let oc := PrimFloat.mul per_million_out price_out in
  ret {| cost_input := ic; cost_output := oc; cost_total := PrimFloat.add ic oc |}))))).

(** The two logs of a [UsageTracker]. *)
Record UsageTracker := {
  log_group : option string;
  usage_history : list TokenUsage;
  cost_history : list CostMetrics
}.

(** [record_usage]; [utcnow n] is the [n]-th reading of the clock and [t]
    the number of readings made so far.  A raise after the first append
    keeps that append. *)
Definition record_usage (utcnow : nat -> string) (t : nat) (tr : UsageTracker)
    (model : string) (input output : Z)
    : result (TokenUsage * CostMetrics) * UsageTracker :=
  let usage := new_TokenUsage (utcnow t) input output in
  let tr1 := {| log_group := log_group tr;
                usage_history := usage_history tr ++ [usage];
                cost_history := cost_history tr |} in
  match _calculate_cost model input output with
  | inl e => (inl e, tr1)
  | inr c =>
      let cost_metrics :=
        new_CostMetrics (utcnow (S t)) model (cost_input c) (cost_output c) (cost_total c) in
      (inr (usage, cost_metrics),
       {| log_group := log_group tr1;
          usage_history := usage_history tr1;
          cost_history := cost_history tr1 ++ [cost_metrics] |})
  end.

End Tracker.

(* ===================================================================== *)
(** ** Clients of the resolver: the rest of [src/auth/aws_auth.py] *)
(* ===================================================================== *)

Module AuthClients.
Import Py Auth.

(** A boto3 client, by what it was created from. *)
Record boto_client := {
  service_name : string;
  client_session : Session;
  client_region : string
}.

Section Clients.

Variable w : world.

(** Whether [session.client(service, region_name=region)] raises. *)
Variable client_error : Session -> string -> string -> option pyexc.

Definition session_client (session : Session) (service region : string) : M boto_client :=
  match client_error session service region with
  | Some e => mraise e
  | None => mret {| service_name := service;
                    client_session := session;
                    client_region := region |}
  end.

Definition get_bedrock_client : M boto_client :=
  do a <- mget;
  (match _session a with
   | None => authenticate w None ;; mret tt
   | Some _ => mret tt
   end) ;;
  do a' <- mget;
  match _session a' with
  | Some session => session_client session "bedrock-runtime" (region a')
  | None => mraise (PyExc AttributeError "'NoneType' object has no attribute 'client'")
  end.

Definition get_bedrock_control_client : M boto_client :=
  do a <- mget;
  (match _session a with
   | None => authenticate w None ;; mret tt
   | Some _ => mret tt
   end) ;;
  do a' <- mget;
  match _session a' with
  | Some session => session_client session "bedrock" (region a')
  | None => mraise (PyExc AttributeError "'NoneType' object has no attribute 'client'")
  end.

(** The property [method]. *)
Definition method : M (option AuthMethod) :=
  do a <- mget; mret (_method a).

End Clients.

(** [get_authenticator(region)]. *)
Definition get_authenticator (r : string) : state := init r.

(** [initialize_authenticator(region)] of the gateway: the global is the
    new object, on which [authenticate()] is then called; the object
    stays in the global when that call raises. *)
Definition initialize_authenticator (w : world) (r : string) : result Session * state :=
  authenticate w None (get_authenticator r).

End AuthClients.

(* ===================================================================== *)
(** ** Windowed totals: [UsageTracker.get_total_usage] *)
(* ===================================================================== *)

Module TrackerQueries.
Import Py Tracker.

(** A naive [datetime] is the number of microseconds since
    [datetime.min] (0001-01-01T00:00:00); [datetime.max] is the last
    microsecond of the year 9999. *)
Definition microseconds_per_day : Z := 86400000000.
Definition datetime_max : Z := 3652059 * microseconds_per_day - 1.

(** [timedelta(days=d)], in microseconds. *)
Definition timedelta_days (d : Z) : result Z :=
  if Z.abs d <=? 999999999 then ret (d * microseconds_per_day)
  else raise (PyExc (OtherError "OverflowError")
                ("days=" +:+ str_of_int d +:+ "; must have magnitude <= 999999999")).

(** [dt - delta] for a [datetime] and a [timedelta]. *)
Definition datetime_sub (dt delta : Z) : result Z :=
  if (0 <=? dt - delta) && (dt - delta <=? datetime_max) then ret (dt - delta)
  else raise (PyExc (OtherError "OverflowError") "date value out of range").

Section Queries.

(** [datetime.fromisoformat], on the timestamps the tracker stores (naive
    ones): the [datetime], or the [ValueError] it raises. *)
Variable fromisoformat : string -> result Z.

(** The list comprehension [[u for u in self.usage_history if ... >= cutoff]]. *)
Fixpoint recent_usage (cutoff : Z) (history : list TokenUsage) : result (list TokenUsage) :=
  match history with
  | [] => ret []
  | u :: rest =>
      bind (fromisoformat (usage_timestamp u)) (fun ts =>
      bind (recent_usage cutoff rest) (fun l =>
      ret (if cutoff <=? ts then u :: l else l)))
  end.

(** [sum(f(u) for u in l)]. *)
Definition sum_of (f : TokenUsage -> Z) (l : list TokenUsage) : Z :=
  fold_left (fun acc u => acc + f u) l 0.

(** [get_total_usage(days)]; [utcnow] is [datetime.utcnow()] at the call. *)
Definition get_total_usage (utcnow : Z) (tr : UsageTracker) (days : Z)
    : result (gmap string Z) :=
  bind (timedelta_days days) (fun delta =>
  bind (datetime_sub utcnow delta) (fun cutoff =>
  bind (recent_usage cutoff (usage_history tr)) (fun recent =>
  ret (<["period_days" := days]>
      (<["total_input_tokens" := sum_of input_tokens recent]>
      (<["total_output_tokens" := sum_of output_tokens recent]>
      (<["total_tokens" := sum_of total_tokens recent]>
      (<["request_count" := Z.of_nat (length recent)]> ∅)))))))).

End Queries.

End TrackerQueries.

(* ===================================================================== *)
(** ** The other endpoints of [src/gateway/server.py] *)
(* ===================================================================== *)

Module Endpoints.
Import Py Json.

(** [x.get(key, dflt)]. *)
Definition py_get_default (x : json) (key : string) (dflt : json) : result json :=
  match x with
  | JObj items => ret (default dflt (lookup_item key items))
  | _ => raise (PyExc AttributeError
                  ("'" +:+ type_name x +:+ "' object has no attribute 'get'"))
  end.

Fixpoint chars (s : string) : list json :=
  match s with
  | EmptyString => []
  | String c rest => JStr (String c EmptyString) :: chars rest
  end.

(** The values [for v in x] goes through. *)
Definition py_iter (x : json) : result (list json) :=
  match x with
  | JArr xs => ret xs
  | JObj items => ret (map (fun kv => JStr (fst kv)) items)
  | JStr s => ret (chars s)
  | _ => raise (PyExc TypeError
                  ("'" +:+ type_name x +:+ "' object is not iterable"))
  end.

(** The control-plane client: [list_foundation_models], called with
    [byProvider] or without it. *)
Record control_client := {
  list_foundation_models : option string -> result json
}.

(** What an endpoint gives back: a JSON body, or [HTTPException]. *)
Inductive endpoint_result :=
| Body (j : json)
| HTTPError (status_code : Z) (detail : string).

(** [root()]. *)
Definition root : json :=
  JObj [ ("status", JStr "ok");
         ("service", JStr "claude-code-bedrock-gateway");
         ("version", JStr "1.0.0") ].

(** [health()].  As in [chat_completions], the global [authenticator] is
    [None] or given by the outcome of its [get_bedrock_control_client()]. *)
Definition health (authenticator : option (result control_client)) : json :=
  match authenticator with
  | Some get_client =>
      match bind get_client (fun client => list_foundation_models client None) with
      | inr _ => JObj [("status", JStr "healthy"); ("aws", JStr "connected")]
      | inl e => JObj [("status", JStr "unhealthy"); ("error", JStr (exc_str e))]
      end
  | None => JObj [("status", JStr "healthy")]
  end.

(** The loop of [list_models]: one entry per summary, the clock read once
    for each. *)
Fixpoint model_entries (now : nat -> Z) (t : nat) (summaries : list json)
    : result (list json) :=
  match summaries with
  | [] => ret []
  | m :: rest =>
      bind (py_getitem m "modelId") (fun id =>
      bind (model_entries now (S t) rest) (fun l =>
      ret (JObj [ ("id", id);
                  ("object", JStr "model");
                  ("created", JInt (now t));
                  ("owned_by", JStr "anthropic") ] :: l)))
  end.

(** [list_models()]. *)
Definition list_models (now : nat -> Z)
    (authenticator : option (result control_client)) : endpoint_result :=
  let run :=
    bind (match authenticator with
          | Some get_client => get_client
          | None => raise (PyExc AttributeError
              "'NoneType' object has no attribute 'get_bedrock_control_client'")
          end) (fun client =>
    bind (list_foundation_models client (Some "Anthropic")) (fun response =>
    bind (py_get_default response "modelSummaries" (JArr [])) (fun summaries =>
    bind (py_iter summaries) (fun l =>
    bind (model_entries now 0 l) (fun models =>
    ret (JObj [("object", JStr "list"); ("data", JArr models)]))))))
  in
  match run with
  | inr body => Body body
  | inl e => HTTPError 500 (exc_str e)
  end.

End Endpoints.

(* ===================================================================== *)
(** ** String facts *)
(* ===================================================================== *)

Module StringFacts.

Lemma append_nil_r (s : string) : s +:+ "" = s.
Proof.
  induction s as [| c s IH]; [reflexivity |].
  change (String c (s +:+ "") = String c s). now rewrite IH.
Qed.

Lemma append_assoc (s1 s2 s3 : string) : (s1 +:+ s2) +:+ s3 = s1 +:+ (s2 +:+ s3).
Proof.
  induction s1 as [| c s1 IH]; [reflexivity |].
  change (String c ((s1 +:+ s2) +:+ s3) = String c (s1 +:+ (s2 +:+ s3))).
  now rewrite IH.
Qed.

Lemma concat_cons (t : string) (l : list string) :
  String.concat "" (t :: l) = t +:+ String.concat "" l.
Proof.
  destruct l as [| t' l]; [now rewrite append_nil_r | reflexivity].
Qed.

End StringFacts.

(* ===================================================================== *)
(** ** Properties of the gateway translators *)
(* ===================================================================== *)

Module GatewayFacts.
Import Py Json Gateway StringFacts.

(** *** Model name mapper *)

Lemma sonnet_id_native : str_contains namespace_marker sonnet_id = true.
Proof. reflexivity. Qed.

Lemma haiku_id_native : str_contains namespace_marker haiku_id = true.
Proof. reflexivity. Qed.

(** Every value of the alias table is a provider-native id. *)
Lemma model_mapping_native :
  map_Forall (fun _ v => str_contains namespace_marker v = true) model_mapping.
Proof.
  unfold model_mapping.
  repeat (apply map_Forall_insert_2; [reflexivity |]).
  apply map_Forall_empty.
Qed.

Lemma map_model_name_native (x : string) :
  str_contains namespace_marker (map_model_name x) = true.
Proof.
  unfold map_model_name.
  destruct (str_contains namespace_marker x) eqn:Hx; [exact Hx |].
  destruct (model_mapping !! x) as [v |] eqn:Hv; simpl.
  - exact (model_mapping_native x v Hv).
  - exact sonnet_id_native.
Qed.

(** C6.  [map_model_name] is a total function of its argument alone: an
    input that contains the namespace marker is returned unchanged, any
    other input is looked up in the alias table with the flagship
    (sonnet) id as the fallback, and mapping twice is mapping once. *)
Theorem map_model_name_spec (x : string) :
  (str_contains namespace_marker x = true -> map_model_name x = x) /\
  (str_contains namespace_marker x = false ->
     map_model_name x = default sonnet_id (model_mapping !! x) /\
     (model_mapping !! x = None -> map_model_name x = sonnet_id)) /\
  map_model_name (map_model_name x) = map_model_name x.
Proof.
  split; [| split].
  - intros H. unfold map_model_name. now rewrite H.
  - intros H. unfold map_model_name. rewrite H. split; [reflexivity |].
    intros Hn. now rewrite Hn.
  - pose proof (map_model_name_native x) as H.
    unfold map_model_name at 1. now rewrite H.
Qed.

Lemma map_model_name_spec_witness :
  str_contains namespace_marker "gpt-4" = false /\
  map_model_name "gpt-4" = sonnet_id /\
  map_model_name "unknown-alias" = sonnet_id /\
  map_model_name (map_model_name "claude-haiku-4.5") = haiku_id.
Proof.
  destruct (map_model_name_spec "gpt-4") as (_ & Halias & _).
  destruct (map_model_name_spec "unknown-alias") as (_ & Hunknown & _).
  destruct (map_model_name_spec "claude-haiku-4.5") as (_ & _ & Hidem).
  split; [reflexivity |].
  split; [exact (proj1 (Halias eq_refl)) |].
  split; [exact (proj2 (Hunknown eq_refl) eq_refl) |].
  rewrite Hidem. reflexivity.
Defined.

(** The aliases of the table, and an unknown alias, evaluated. *)
Example map_model_name_examples :
  map_model_name "claude-sonnet-4.5" = "anthropic.claude-sonnet-4-5-20250929-v1:0" /\
  map_model_name "gpt-3.5-turbo" = "anthropic.claude-haiku-4-5-20251001-v1:0" /\
  map_model_name "mistral-large" = "anthropic.claude-sonnet-4-5-20250929-v1:0" /\
  map_model_name "eu.anthropic.claude-x" = "eu.anthropic.claude-x".
Proof. repeat split; vm_compute; reflexivity. Qed.

(** *** Request translator *)

Definition is_system (m : ChatMessage) : bool := String.eqb (role m) "system".

Definition is_dialogue (m : ChatMessage) : bool :=
  String.eqb (role m) "user" || String.eqb (role m) "assistant".

(** The provider-format message for a user or assistant message. *)
Definition to_bedrock (m : ChatMessage) : json :=
  JObj [("role", JStr (role m)); ("content", JStr (content m))].

(** The content of the last system message of a list, if there is one. *)
Definition last_system (msgs : list ChatMessage) : option string :=
  content <$> last (List.filter is_system msgs).

Lemma is_system_not_dialogue (m : ChatMessage) :
  is_system m = true -> is_dialogue m = false.
Proof.
  unfold is_system, is_dialogue. intros H.
  apply String.eqb_eq in H. rewrite H. reflexivity.
Qed.

Lemma convert_step_messages (st : convert_state) (m : ChatMessage) :
  bedrock_messages (convert_step st m) =
  bedrock_messages st ++ (if is_dialogue m then [to_bedrock m] else []).
Proof.
  unfold convert_step, is_dialogue, to_bedrock.
  destruct (String.eqb (role m) "system") eqn:Hs.
  - apply String.eqb_eq in Hs. rewrite Hs. simpl. now rewrite app_nil_r.
  - destruct (String.eqb (role m) "user" || String.eqb (role m) "assistant");
      simpl; [reflexivity | now rewrite app_nil_r].
Qed.

Lemma convert_step_system (st : convert_state) (m : ChatMessage) :
  system_message (convert_step st m) =
  if is_system m then Some (content m) else system_message st.
Proof.
  unfold convert_step, is_system.
  destruct (String.eqb (role m) "system"); [reflexivity |].
  now destruct (String.eqb (role m) "user" || String.eqb (role m) "assistant").
Qed.

(** The loop from any state: the dialogue messages are appended in
    order; the system slot holds the last system content seen. *)
Lemma fold_convert_step (msgs : list ChatMessage) (st : convert_state) :
  bedrock_messages (fold_left convert_step msgs st) =
    bedrock_messages st ++ map to_bedrock (List.filter is_dialogue msgs) /\
  system_message (fold_left convert_step msgs st) =
    match last_system msgs with
    | Some s => Some s
    | None => system_message st
    end.
Proof.
  revert st. induction msgs as [| m msgs IH]; intros st; simpl.
  - now rewrite app_nil_r.
  - destruct (IH (convert_step st m)) as [IHm IHs]. split.
    + rewrite IHm, convert_step_messages.
      destruct (is_dialogue m); simpl; rewrite <- app_assoc; reflexivity.
    + rewrite IHs, convert_step_system. unfold last_system. simpl.
      destruct (is_system m) eqn:Hm; simpl.
      * destruct (List.filter is_system msgs) as [| m' l]; simpl; [reflexivity |].
        destruct (last (m' :: l)) eqn:Hl; simpl; [reflexivity |].
        apply last_None in Hl. discriminate.
      * reflexivity.
Qed.

Lemma convert_loop_spec (msgs : list ChatMessage) :
  bedrock_messages (convert_loop msgs) = map to_bedrock (List.filter is_dialogue msgs) /\
  system_message (convert_loop msgs) = last_system msgs.
Proof.
  unfold convert_loop.
  destruct (fold_convert_step msgs convert_init) as [Hm Hs]. split.
  - exact Hm.
  - rewrite Hs. simpl. now destruct (last_system msgs).
Qed.

Lemma filter_dialogue_drop_system (msgs : list ChatMessage) :
  List.filter is_dialogue (List.filter (fun m => negb (is_system m)) msgs) =
  List.filter is_dialogue msgs.
Proof.
  induction msgs as [| m msgs IH]; simpl; [reflexivity |].
  destruct (is_system m) eqn:Hs; simpl.
  - rewrite (is_system_not_dialogue m Hs). exact IH.
  - destruct (is_dialogue m); [f_equal |]; exact IH.
Qed.

(** C4.  The loop of [convert_messages] leaves in [system_message] the
    content of the last system message only; the value returned is the
    list of user and assistant messages with role, content and order
    kept, it has no ["system"] entry, and it is the same list with every
    system message removed from the input: the system text only reaches
    the local [result], which is not returned. *)
Theorem convert_messages_spec (msgs : list ChatMessage) :
  system_message (convert_loop msgs) = last_system msgs /\
  convert_messages msgs = map to_bedrock (List.filter is_dialogue msgs) /\
  Forall (fun j => py_in "system" j = ret false) (convert_messages msgs) /\
  convert_messages msgs =
    convert_messages (List.filter (fun m => negb (is_system m)) msgs) /\
  py_get (convert_result (convert_loop msgs)) "system" =
    ret (match last_system msgs with
         | Some s => if str_truthy s then JStr s else JNull
         | None => JNull
         end).
Proof.
  destruct (convert_loop_spec msgs) as [Hm Hs].
  assert (Hret : convert_messages msgs = map to_bedrock (List.filter is_dialogue msgs))
    by exact Hm.
  repeat split.
  - exact Hs.
  - exact Hret.
  - rewrite Hret. apply Forall_forall. intros j Hj.
    apply list_elem_of_In, in_map_iff in Hj. destruct Hj as [m [<- _]]. reflexivity.
  - rewrite Hret.
    destruct (convert_loop_spec (List.filter (fun m => negb (is_system m)) msgs))
      as [Hm' _].
    unfold convert_messages. rewrite Hm', filter_dialogue_drop_system. reflexivity.
  - unfold convert_result. rewrite Hs.
    destruct (last_system msgs) as [s |]; [| reflexivity].
    destruct (str_truthy s); reflexivity.
Qed.

(** Two system messages: the later one is kept by the loop, none is returned. *)
Example convert_messages_two_systems :
  let msgs := [ {| role := "system"; content := "first" |};
                {| role := "user"; content := "hi" |};
                {| role := "system"; content := "second" |};
                {| role := "assistant"; content := "hello" |} ] in
  system_message (convert_loop msgs) = Some "second" /\
  convert_messages msgs =
    [ JObj [("role", JStr "user"); ("content", JStr "hi")];
      JObj [("role", JStr "assistant"); ("content", JStr "hello")] ].
Proof. split; reflexivity. Qed.

Lemma convert_step_unknown_role (st : convert_state) (m : ChatMessage) :
  role m ∉ ["system"; "user"; "assistant"] -> convert_step st m = st.
Proof.
  intros H. unfold convert_step.
  destruct (String.eqb (role m) "system") eqn:H1.
  { apply String.eqb_eq in H1. exfalso. apply H. rewrite H1. set_solver. }
  destruct (String.eqb (role m) "user") eqn:H2.
  { apply String.eqb_eq in H2. exfalso. apply H. rewrite H2. set_solver. }
  destruct (String.eqb (role m) "assistant") eqn:H3.
  { apply String.eqb_eq in H3. exfalso. apply H. rewrite H3. set_solver. }
  reflexivity.
Qed.

(** C10.  A message whose role is none of system, user, assistant leaves
    the whole loop state as it was: conversion of a list with such a
    message anywhere in it gives the translated list and the system slot
    of the list without it.  [convert_messages] is a total function, so
    nothing is raised. *)
Theorem convert_messages_drops_unknown_role
    (pre post : list ChatMessage) (m : ChatMessage) :
  role m ∉ ["system"; "user"; "assistant"] ->
  convert_loop (pre ++ m :: post) = convert_loop (pre ++ post) /\
  convert_messages (pre ++ m :: post) = convert_messages (pre ++ post) /\
  convert_result (convert_loop (pre ++ m :: post)) =
    convert_result (convert_loop (pre ++ post)).
Proof.
  intros H.
  assert (Hloop : convert_loop (pre ++ m :: post) = convert_loop (pre ++ post)).
  { unfold convert_loop. rewrite !fold_left_app. simpl.
    now rewrite (convert_step_unknown_role _ m H). }
  unfold convert_messages. rewrite Hloop. repeat split.
Qed.

Lemma convert_messages_drops_unknown_role_witness :
  let tool := {| role := "tool"; content := "42" |} in
  let pre := [ {| role := "system"; content := "be brief" |};
               {| role := "user"; content := "hi" |} ] in
  let post := [ {| role := "assistant"; content := "hello" |} ] in
  (role tool ∉ ["system"; "user"; "assistant"]) /\
  convert_messages (pre ++ tool :: post) =
    [ JObj [("role", JStr "user"); ("content", JStr "hi")];
      JObj [("role", JStr "assistant"); ("content", JStr "hello")] ] /\
  convert_loop (pre ++ tool :: post) = convert_loop (pre ++ post).
Proof.
  assert (H : "tool" ∉ ["system"; "user"; "assistant"]).
  { intros H. repeat (apply elem_of_cons in H as [H | H]; [discriminate H |]).
    inversion H. }
  split; [exact H |]. split; [reflexivity |].
  exact (proj1 (convert_messages_drops_unknown_role
                  [ {| role := "system"; content := "be brief" |};
                    {| role := "user"; content := "hi" |} ]
                  [ {| role := "assistant"; content := "hello" |} ]
                  {| role := "tool"; content := "42" |} H)).
Defined.

(** *** Request translation in [chat_completions] *)

(** The entry of the provider request under [key], if it has one. *)
Definition request_entry (request : ChatCompletionRequest) (key : string) : option json :=
  match bedrock_request request with
  | JObj items => lookup_item key items
  | _ => None
  end.

Lemma request_entry_top_p (request : ChatCompletionRequest) :
  request_entry request "top_p" =
  match top_p request with
  | Some p => if float_truthy p then Some (JFloat p) else None
  | None => None
  end.
Proof.
  unfold request_entry, bedrock_request. simpl.
  destruct (top_p request) as [p |]; simpl.
  - destruct (float_truthy p); simpl; [reflexivity |].
    destruct (stop request) as [[| s l] |]; reflexivity.
  - destruct (stop request) as [[| s l] |]; reflexivity.
Qed.

Lemma request_entry_stop (request : ChatCompletionRequest) :
  request_entry request "stop_sequences" =
  match stop request with
  | Some (s :: l) => Some (JArr (map JStr (s :: l)))
  | _ => None
  end.
Proof.
  unfold request_entry, bedrock_request. simpl.
  destruct (top_p request) as [p |]; simpl.
  - destruct (float_truthy p); simpl;
      destruct (stop request) as [[| s l] |]; reflexivity.
  - destruct (stop request) as [[| s l] |]; reflexivity.
Qed.

Lemma map_JStr_inj (l1 l2 : list string) : map JStr l1 = map JStr l2 -> l1 = l2.
Proof.
  revert l2. induction l1 as [| a l1 IH]; intros [| b l2] H; try discriminate H.
  - reflexivity.
  - simpl in H. injection H as Ha Hl. f_equal; [exact Ha | exact (IH l2 Hl)].
Qed.

(** C8, as the code has it.  [max_tokens] is 4096 when absent and the
    client's value otherwise; [temperature] is passed unchanged;
    [stop_sequences] is present exactly when the client gave a non-empty
    stop list, with that list; [top_p] is absent when the client gave
    none and is the client's value when that value is non-zero. *)
Theorem bedrock_request_spec (request : ChatCompletionRequest) :
  (max_tokens request = None ->
     request_entry request "max_tokens" = Some (JInt 4096)) /\
  (forall n, max_tokens request = Some n -> 1 <= n ->
     request_entry request "max_tokens" = Some (JInt n)) /\
  request_entry request "temperature" = Some (JFloat (temperature request)) /\
  (forall l, request_entry request "stop_sequences" = Some (JArr (map JStr l)) <->
             stop request = Some l /\ l <> []) /\
  (request_entry request "stop_sequences" = None <->
     stop request = None \/ stop request = Some []) /\
  (top_p request = None -> request_entry request "top_p" = None) /\
  (forall p, top_p request = Some p -> float_truthy p = true ->
     request_entry request "top_p" = Some (JFloat p)).
Proof.
  split; [| split; [| split; [| split; [| split; [| split]]]]].
  - intros H. unfold request_entry, bedrock_request. now rewrite H.
  - intros n H Hn. unfold request_entry, bedrock_request. rewrite H. simpl.
    destruct (Z.eqb_spec n 0); [lia | reflexivity].
  - reflexivity.
  - intros l. rewrite request_entry_stop.
    destruct (stop request) as [[| s l'] |]; split.
    + discriminate.
    + intros [H Hne]. injection H as <-. now contradiction Hne.
    + intros H. injection H as H.
      apply (map_JStr_inj (s :: l') l) in H. subst l.
      split; [reflexivity | discriminate].
    + intros [H _]. now injection H as <-.
    + discriminate.
    + intros [H _]. discriminate.
  - rewrite request_entry_stop.
    destruct (stop request) as [[| s l'] |]; split; try (intros; discriminate);
      try (intros _; auto; fail); intros [H | H]; discriminate.
  - intros H. rewrite request_entry_top_p. now rewrite H.
  - intros p H Hp. rewrite request_entry_top_p, H. now rewrite Hp.
Qed.

(** A request whose stop list is present and empty. *)
Definition request_empty_stop : ChatCompletionRequest :=
  {| model := "claude-sonnet-4.5";
     messages := [ {| role := "user"; content := "hi" |} ];
     temperature := 1%float;
     max_tokens := None;
     stream := false;
     top_p := None;
     stop := Some [] |}.

(** The stop list is present in the client request and there is no
    [stop_sequences] entry in the provider request. *)
Lemma bedrock_request_drops_empty_stop :
  stop request_empty_stop = Some [] /\
  request_entry request_empty_stop "stop_sequences" = None.
Proof. split; reflexivity. Qed.

(** The same test reads [top_p = 0.0] as absent. *)
Example bedrock_request_top_p_zero :
  request_entry
    {| model := "m"; messages := []; temperature := 1%float; max_tokens := Some 16;
       stream := false; top_p := Some 0%float; stop := None |} "top_p" = None.
Proof. reflexivity. Qed.

Lemma bedrock_request_spec_witness :
  let request := {| model := "gpt-4";
                    messages := [ {| role := "user"; content := "hi" |} ];
                    temperature := 0.5%float;
                    max_tokens := None;
                    stream := false;
                    top_p := Some 0.75%float;
                    stop := Some ["END"] |} in
  request_entry request "max_tokens" = Some (JInt 4096) /\
  request_entry request "top_p" = Some (JFloat 0.75%float) /\
  request_entry request "stop_sequences" = Some (JArr [JStr "END"]).
Proof.
  intros request.
  destruct (bedrock_request_spec request) as (Hmax & _ & _ & Hstop & _ & _ & Htop).
  split; [exact (Hmax eq_refl) |].
  split; [exact (Htop 0.75%float eq_refl eq_refl) |].
  apply (Hstop ["END"]). split; [reflexivity | discriminate].
Defined.

(** *** Response translator *)

(** The texts of the text-typed blocks of a response, in order. *)
Definition text_blocks (r : bedrock_response) : list string :=
  omap (fun b => if String.eqb (block_type b) "text" then block_text b else None)
       (default [] (resp_content r)).

(** Every text-typed block has its text. *)
Definition texts_present (r : bedrock_response) : Prop :=
  Forall (fun b => block_type b = "text" -> is_Some (block_text b))
         (default [] (resp_content r)).

#[local] Arguments String.concat : simpl never.

Lemma concat_text_spec (blocks : list content_block) (acc : string) :
  Forall (fun b => block_type b = "text" -> is_Some (block_text b)) blocks ->
  concat_text acc blocks =
  ret (acc +:+ String.concat ""
         (omap (fun b => if String.eqb (block_type b) "text" then block_text b else None)
               blocks)).
Proof.
  intros H. revert acc. induction H as [| b blocks Hb _ IH]; intros acc; simpl.
  - now rewrite append_nil_r.
  - destruct (String.eqb (block_type b) "text") eqn:Hty.
    + apply String.eqb_eq in Hty. destruct (Hb Hty) as [t Ht]. rewrite Ht. simpl.
      rewrite IH, concat_cons. now rewrite append_assoc.
    + simpl. apply IH.
Qed.

(** C7.  For a response whose text blocks carry their text, the
    translator returns one choice: the assistant message whose content is
    the concatenation of the text blocks in order, with finish reason
    ["stop"]; and a usage dict whose token fields are read from the
    response's usage block, 0 when absent, with
    [total_tokens = input_tokens + output_tokens]. *)
Theorem convert_to_openai_format_spec
    (now : nat -> Z) (t : nat) (r : bedrock_response)
    (model_id original_model : string) :
  texts_present r ->
  exists resp u,
    convert_to_openai_format now t r model_id original_model = inr resp /\
    choices resp = [ {| choice_index := 0;
                        message_role := "assistant";
                        message_content := String.concat "" (text_blocks r);
                        finish_reason := "stop" |} ] /\
    usage resp = Some u /\
    u !! "prompt_tokens" = Some (default 0 (default ∅ (resp_usage r) !! "input_tokens")) /\
    u !! "completion_tokens" = Some (default 0 (default ∅ (resp_usage r) !! "output_tokens")) /\
    u !! "total_tokens" = Some (default 0 (default ∅ (resp_usage r) !! "input_tokens") +
                                default 0 (default ∅ (resp_usage r) !! "output_tokens")).
Proof.
  intros H. unfold convert_to_openai_format.
  assert (Htext : match resp_content r with
                  | Some blocks => concat_text "" blocks
                  | None => ret ""
                  end = ret (String.concat "" (text_blocks r))).
  { unfold texts_present, text_blocks in *.
    destruct (resp_content r) as [blocks |]; simpl in *.
    - now rewrite (concat_text_spec blocks "" H).
    - reflexivity. }
  rewrite Htext. simpl.
  eexists. eexists. split; [reflexivity |]. simpl.
  split; [reflexivity |]. split; [reflexivity |].
  unfold usage_get. repeat split.
Qed.

(** The scenario of the specification: one text block, 5 and 1 tokens. *)
Lemma convert_to_openai_format_spec_witness :
  let r := {| resp_content := Some [ {| block_type := "text"; block_text := Some "hello" |} ];
              resp_usage := Some (<["input_tokens" := 5]> (<["output_tokens" := 1]> ∅)) |} in
  texts_present r /\
  exists resp u,
    convert_to_openai_format (fun _ => 1700000000) 0 r
      "anthropic.claude-sonnet-4-5-20250929-v1:0" "claude-sonnet-4.5" = inr resp /\
    choices resp = [ {| choice_index := 0; message_role := "assistant";
                        message_content := "hello"; finish_reason := "stop" |} ] /\
    usage resp = Some u /\
    u !! "total_tokens" = Some 6.
Proof.
  intros r.
  assert (H : texts_present r).
  { repeat constructor. intros _. now exists "hello". }
  split; [exact H |].
  destruct (convert_to_openai_format_spec (fun _ => 1700000000) 0 r
              "anthropic.claude-sonnet-4-5-20250929-v1:0" "claude-sonnet-4.5" H)
    as (resp & u & Hr & Hc & Hu & _ & _ & Ht).
  exists resp, u. repeat split; assumption.
Defined.

(** *** Stream translator *)

Section StreamFacts.

Variable float_repr : float -> string.
Variable now : nat -> Z.
Variable model_id : string.

#[local] Abbreviation content_frame := (Gateway.content_frame float_repr now model_id).
#[local] Abbreviation error_frame := (Gateway.error_frame float_repr).
#[local] Abbreviation delta_part := (Gateway.delta_part float_repr now model_id).
#[local] Abbreviation handle_event := (Gateway.handle_event float_repr now model_id).
#[local] Abbreviation stream_loop := (Gateway.stream_loop float_repr now model_id).
#[local] Abbreviation try_body := (Gateway.try_body float_repr now model_id).
#[local] Abbreviation stream_run := (Gateway.stream_run float_repr now model_id).
#[local] Abbreviation stream_bedrock_response := (Gateway.stream_bedrock_response float_repr now model_id).
#[local] Abbreviation events_consumed := (Gateway.events_consumed float_repr now model_id).

(** The three kinds of frame are told apart by their first characters. *)

Lemma done_is_done : is_done_frame done_frame = true.
Proof. reflexivity. Qed.

Lemma error_not_done (msg : string) : is_done_frame (error_frame msg) = false.
Proof. reflexivity. Qed.

Lemma content_not_done (t : nat) (text : json) :
  is_done_frame (content_frame t text) = false.
Proof. reflexivity. Qed.

Lemma error_is_error (msg : string) : is_error_frame (error_frame msg) = true.
Proof. reflexivity. Qed.

Lemma done_not_error : is_error_frame done_frame = false.
Proof. reflexivity. Qed.

Lemma content_not_error (t : nat) (text : json) :
  is_error_frame (content_frame t text) = false.
Proof. reflexivity. Qed.

Lemma content_is_content (t : nat) (text : json) :
  is_content_frame (content_frame t text) = true.
Proof. reflexivity. Qed.

Lemma error_not_content (msg : string) : is_content_frame (error_frame msg) = false.
Proof. reflexivity. Qed.

Lemma done_not_content : is_content_frame done_frame = false.
Proof. reflexivity. Qed.

(** A list of content frames only. *)
Definition content_frames (fs : list string) : Prop :=
  Forall (fun f => exists t text, f = content_frame t text) fs.

Lemma content_frames_app (fs gs : list string) :
  content_frames fs -> content_frames gs -> content_frames (fs ++ gs).
Proof. intros Hf Hg. apply Forall_app. now split. Qed.

Lemma count_app (p : string -> bool) (l1 l2 : list string) :
  count p (l1 ++ l2) = (count p l1 + count p l2)%nat.
Proof. unfold count. now rewrite List.filter_app, length_app. Qed.

Lemma count_content_frames (p : string -> bool) (fs : list string) :
  (forall t text, p (content_frame t text) = false) ->
  content_frames fs -> count p fs = 0%nat.
Proof.
  intros Hp H. induction H as [| f fs [t [text ->]] _ IH]; [reflexivity |].
  unfold count in *. simpl. now rewrite Hp.
Qed.

Lemma count_all_content (fs : list string) :
  content_frames fs -> count is_content_frame fs = length fs.
Proof.
  intros H. induction H as [| f fs [t [text ->]] _ IH]; [reflexivity |].
  unfold count in *. cbn [List.filter]. rewrite content_is_content.
  cbn [length]. now rewrite IH.
Qed.

(** In a list that ends with the only frame of its class, a frame of
    that class has nothing after it. *)
Lemma nothing_after_last (p : string -> bool) (cs pre post : list string) (x y : string) :
  count p cs = 0%nat -> p y = true ->
  cs ++ [x] = pre ++ y :: post -> post = [].
Proof.
  intros Hcs Hy Heq.
  destruct post as [| z post] using rev_ind; [reflexivity |].
  exfalso.
  change (pre ++ y :: post ++ [z]) with (pre ++ (y :: post) ++ [z]) in Heq.
  rewrite app_assoc in Heq. apply app_inj_tail in Heq as [-> _].
  rewrite count_app in Hcs. unfold count in Hcs. simpl in Hcs.
  rewrite Hy in Hcs. simpl in Hcs. lia.
Qed.

Lemma count_zero_no_member (p : string -> bool) (pre post : list string) (y : string) :
  p y = true -> count p (pre ++ y :: post) <> 0%nat.
Proof.
  intros Hy. rewrite count_app. unfold count. simpl. rewrite Hy. simpl. lia.
Qed.

(** The frames of one iteration are content frames. *)
Lemma delta_part_frames (t : nat) (chunk : json) (fs : list string) (t' : nat) :
  delta_part t chunk = inr (fs, t') -> content_frames fs.
Proof.
  unfold Gateway.delta_part, bind, ret.
  destruct (py_in "delta" chunk) as [e | [|]]; try discriminate.
  - destruct (py_getitem chunk "delta") as [e | delta]; try discriminate.
    destruct (py_in "text" delta) as [e | [|]]; try discriminate.
    + destruct (py_getitem delta "text") as [e | text]; try discriminate.
      intros H. injection H as <- _. repeat constructor. now exists t, text.
    + intros H. injection H as <- _. constructor.
  - intros H. injection H as <- _. constructor.
Qed.

Lemma handle_event_frames (t : nat) (ev : event) (fs : list string) (t' : nat) (o : outcome) :
  handle_event t ev = (fs, t', o) -> content_frames fs.
Proof.
  unfold Gateway.handle_event.
  destruct ev as [| [e | chunk]].
  - intros H. injection H as <- _ _. constructor.
  - intros H. injection H as <- _ _. constructor.
  - destruct (delta_part t chunk) as [e | [frames t1]] eqn:Hd.
    + intros H. injection H as <- _ _. constructor.
    + apply delta_part_frames in Hd.
      destruct (py_get chunk "type") as [e | ty].
      * intros H. now injection H as <- _ _.
      * destruct (eq_str ty "message_stop"); intros H; now injection H as <- _ _.
Qed.

(** What the loop yields: content frames, then possibly the sentinel,
    and the sentinel only when no exception leaves the loop. *)
Lemma stream_loop_shape (evs : list event) (t : nat) (fail : option pyexc)
    (fs : list string) (n : nat) (r : option pyexc) :
  stream_loop t evs fail = (fs, n, r) ->
  exists cs, content_frames cs /\ (fs = cs \/ (fs = cs ++ [done_frame] /\ r = None)).
Proof.
  revert t fs n r. induction evs as [| ev rest IH]; intros t fs n r; simpl.
  - intros H. injection H as <- _ _. exists []. split; [constructor | now left].
  - destruct (handle_event t ev) as [[frames t1] o] eqn:He.
    apply handle_event_frames in He.
    destruct o as [| | e].
    + destruct (stream_loop t1 rest fail) as [[frames' n'] r'] eqn:Hl.
      intros H. injection H as <- _ <-.
      destruct (IH _ _ _ _ Hl) as [cs [Hcs [-> | [-> ->]]]].
      * exists (frames ++ cs). split; [now apply content_frames_app | now left].
      * exists (frames ++ cs). split; [now apply content_frames_app |].
        right. now rewrite app_assoc.
    + intros H. injection H as <- _ <-. exists frames. split; [exact He | now right].
    + intros H. injection H as <- _ _. exists frames. split; [exact He | now left].
Qed.

(** What the generator yields: content frames, then nothing more, or the
    sentinel, or one error frame. *)
Lemma stream_shape (client : string -> string -> result (option event_stream))
    (request_body : json) :
  exists cs, content_frames cs /\
    (stream_bedrock_response client request_body = cs \/
     stream_bedrock_response client request_body = cs ++ [done_frame] \/
     exists msg, stream_bedrock_response client request_body = cs ++ [error_frame msg]).
Proof.
  unfold Gateway.stream_bedrock_response, Gateway.stream_run, Gateway.try_body.
  destruct (client model_id (dumps float_repr request_body)) as [e | [s |]]; simpl.
  - exists []. split; [constructor |]. right. right. now exists (exc_str e).
  - destruct (stream_loop 0 (events s) (failure s)) as [[fs n] r] eqn:Hl. simpl.
    destruct (stream_loop_shape _ _ _ _ _ _ Hl) as [cs [Hcs [-> | [-> ->]]]];
      exists cs; (split; [exact Hcs |]).
    + destruct r as [e |]; [right; right; now exists (exc_str e) |].
      left. now rewrite app_nil_r.
    + right. left. now rewrite app_nil_r.
  - exists []. split; [constructor |]. right. right. now exists "No response stream".
Qed.

(** A well-formed event never raises: the loop goes on, or breaks at a
    [message_stop]. *)
Lemma handle_event_well_formed (t : nat) (ev : event) :
  well_formed ev = true ->
  exists fs t',
    handle_event t ev = (fs, t', if is_message_stop ev then Break else Continue).
Proof.
  destruct ev as [| [e | chunk]]; simpl; try discriminate.
  - intros _. now exists [], t.
  - destruct chunk as [| b | z | f | s | xs | items]; try discriminate.
    unfold Gateway.delta_part, bind, ret, py_in, py_getitem. simpl.
    destruct (lookup_item "delta" items) as [[| b | z | f | s | xs | d] |];
      try discriminate; intros _.
    + simpl. destruct (lookup_item "text" d) as [text |]; simpl;
        destruct (eq_str (default JNull (lookup_item "type" items)) "message_stop");
        eauto.
    + simpl.
      destruct (eq_str (default JNull (lookup_item "type" items)) "message_stop");
        eauto.
Qed.

(** Reaching a [message_stop] event: the loop yields content frames and
    then the sentinel, takes no event after the stop event, and neither
    the rest of the stream nor a later failure of its iterator matters. *)
Lemma stream_loop_stop (pre : list event) (ev : event) :
  Forall (fun e => well_formed e = true /\ is_message_stop e = false) pre ->
  well_formed ev = true -> is_message_stop ev = true ->
  forall t, exists cs, content_frames cs /\
    forall rest fail,
      stream_loop t (pre ++ ev :: rest) fail = (cs ++ [done_frame], S (length pre), None).
Proof.
  intros Hpre Hwf Hstop. induction Hpre as [| a pre [Ha Hns] _ IH]; intros t.
  - destruct (handle_event_well_formed t ev Hwf) as [fs [t' He]].
    rewrite Hstop in He.
    exists fs. split; [exact (handle_event_frames _ _ _ _ _ He) |].
    intros rest fail. simpl. now rewrite He.
  - destruct (handle_event_well_formed t a Ha) as [fs [t' He]].
    rewrite Hns in He.
    destruct (IH t') as [cs [Hcs Hloop]].
    exists (fs ++ cs). split.
    + apply content_frames_app; [exact (handle_event_frames _ _ _ _ _ He) | exact Hcs].
    + intros rest fail. simpl. rewrite He, Hloop. now rewrite app_assoc.
Qed.

(** C1.  For every client and request: the sentinel frame is yielded at
    most once and no frame follows it.  When the provider stream reaches
    a [message_stop] event (the events before it are well formed and are
    not stop events), the sentinel is yielded exactly once, the stop
    event is the last one taken from the stream, and the frames are those
    of the stream cut after the stop event. *)
Theorem stream_sentinel
    (client : string -> string -> result (option event_stream))
    (request_body : json) :
  (count is_done_frame (stream_bedrock_response client request_body) <= 1)%nat /\
  (forall pre post,
     stream_bedrock_response client request_body = pre ++ done_frame :: post ->
     post = []) /\
  (forall pre ev rest fail,
     client model_id (dumps float_repr request_body) =
       inr (Some {| events := pre ++ ev :: rest; failure := fail |}) ->
     Forall (fun e => well_formed e = true /\ is_message_stop e = false) pre ->
     well_formed ev = true ->
     is_message_stop ev = true ->
     count is_done_frame (stream_bedrock_response client request_body) = 1%nat /\
     events_consumed client request_body = S (length pre) /\
     stream_bedrock_response client request_body =
       fst (fst (stream_loop 0 (pre ++ [ev]) None))).
Proof.
  split; [| split].
  - destruct (stream_shape client request_body) as [cs [Hcs [-> | [-> | [msg ->]]]]];
      rewrite ?count_app, (count_content_frames _ cs content_not_done Hcs);
      unfold count; simpl; lia.
  - intros pre post Heq.
    pose proof (count_content_frames is_done_frame) as Hzero.
    destruct (stream_shape client request_body) as [cs [Hcs [H | [H | [msg H]]]]];
      rewrite H in Heq.
    + exfalso. apply (count_zero_no_member is_done_frame pre post done_frame done_is_done).
      rewrite <- Heq. exact (Hzero cs content_not_done Hcs).
    + exact (nothing_after_last is_done_frame cs pre post done_frame done_frame
               (Hzero cs content_not_done Hcs) done_is_done Heq).
    + exfalso. apply (count_zero_no_member is_done_frame pre post done_frame done_is_done).
      rewrite <- Heq, count_app, (Hzero cs content_not_done Hcs).
      reflexivity.
  - intros pre ev rest fail Hcl Hpre Hwf Hstop.
    destruct (stream_loop_stop pre ev Hpre Hwf Hstop 0%nat) as [cs [Hcs Hloop]].
    unfold Gateway.events_consumed, Gateway.stream_bedrock_response,
      Gateway.stream_run, Gateway.try_body.
    rewrite Hcl. simpl. rewrite (Hloop rest fail), (Hloop [] None). simpl.
    rewrite app_nil_r, count_app, (count_content_frames _ cs content_not_done Hcs).
    repeat split.
Qed.

(** A stream of well-formed events without a stop event, whose iterator
    then raises: every event is taken, and the exception leaves the loop. *)
Lemma stream_loop_iterator_failure (evs : list event) (e : pyexc) :
  Forall (fun ev => well_formed ev = true /\ is_message_stop ev = false) evs ->
  forall t, exists cs, content_frames cs /\
    stream_loop t evs (Some e) = (cs, length evs, Some e).
Proof.
  intros H. induction H as [| a evs [Ha Hns] _ IH]; intros t.
  - exists []. split; [constructor | reflexivity].
  - destruct (handle_event_well_formed t a Ha) as [fs [t' He]].
    rewrite Hns in He.
    destruct (IH t') as [cs [Hcs Hloop]].
    exists (fs ++ cs). split.
    + apply content_frames_app; [exact (handle_event_frames _ _ _ _ _ He) | exact Hcs].
    + simpl. now rewrite He, Hloop.
Qed.

End StreamFacts.

(** *** The stream translator on concrete streams *)

Definition repr_example (f : float) : string := "0.5".
Definition now_example (n : nat) : Z := 1700000000 + Z.of_nat n.

Definition text_event (s : string) : event :=
  EvChunk (inr (JObj [ ("type", JStr "content_block_delta");
                       ("delta", JObj [("type", JStr "text_delta"); ("text", JStr s)]) ])).

Definition stop_event : event :=
  EvChunk (inr (JObj [("type", JStr "message_stop")])).

(** A client whose response body is the given stream. *)
Definition client_of (s : event_stream) : string -> string -> result (option event_stream) :=
  fun _ _ => inr (Some s).

(** The scenario of the specification, with one more event after the
    stop event: two content frames, the sentinel, and three events taken. *)
Lemma stream_sentinel_witness :
  let client := client_of {| events := [text_event "a"; text_event "b"] ++
                                       stop_event :: [text_event "c"];
                             failure := None |} in
  let out := stream_bedrock_response repr_example now_example "m" client (JObj []) in
  count is_done_frame out = 1%nat /\
  events_consumed repr_example now_example "m" client (JObj []) = 3%nat /\
  out = [ content_frame repr_example now_example "m" 0 (JStr "a");
          content_frame repr_example now_example "m" 2 (JStr "b");
          done_frame ].
Proof.
  intros client out.
  destruct (stream_sentinel repr_example now_example "m" client (JObj []))
    as (_ & _ & Hstop).
  destruct (Hstop [text_event "a"; text_event "b"] stop_event [text_event "c"] None)
    as (Hcount & Hn & Hout).
  - reflexivity.
  - repeat constructor.
  - reflexivity.
  - reflexivity.
  - split; [exact Hcount |]. split; [exact Hn |]. exact Hout.
Defined.

Example stream_bad_chunk_then_stop :
  let bad := PyExc JSONDecodeError "Expecting value: line 1 column 1 (char 0)" in
  stream_run repr_example now_example "m"
    (client_of {| events := [text_event "a"; EvChunk (inl bad); stop_event];
                  failure := None |}) (JObj []) =
  ([ content_frame repr_example now_example "m" 0 (JStr "a");
     error_frame repr_example "Expecting value: line 1 column 1 (char 0)" ], 2%nat).
Proof. reflexivity. Qed.

(** A stop event whose ["delta"] is a number raises before its type is read. *)
Example stream_stop_with_bad_delta :
  stream_run repr_example now_example "m"
    (client_of {| events := [EvChunk (inr (JObj [ ("type", JStr "message_stop");
                                               ("delta", JInt 5) ]))];
                  failure := None |}) (JObj []) =
  ([error_frame repr_example "argument of type 'int' is not iterable"], 1%nat).
Proof. reflexivity. Qed.

Example stream_no_body :
  stream_run repr_example now_example "m" (fun _ _ => inr None) (JObj []) =
  ([error_frame repr_example "No response stream"], 0%nat).
Proof. reflexivity. Qed.

(** *** The handler on the scenario of the specification *)

Example chat_completions_scenario :
  let request := {| model := "claude-sonnet-4.5";
                    messages := [ {| role := "user"; content := "hi" |} ];
                    temperature := 1%float; max_tokens := None; stream := false;
                    top_p := None; stop := None |} in
  let response := {| resp_content := Some [ {| block_type := "text";
                                               block_text := Some "hello" |} ];
                     resp_usage := Some (<["input_tokens" := 5]>
                                        (<["output_tokens" := 1]> ∅)) |} in
  let client := {| invoke_model := fun model_id _ =>
                     if String.eqb model_id "anthropic.claude-sonnet-4-5-20250929-v1:0"
                     then inr response
                     else inl (PyExc ClientError "unknown model");
                   invoke_model_with_response_stream := fun _ _ => inr None |} in
  exists r u,
    chat_completions repr_example now_example (Some (inr client)) request = Completion r /\
    message_content <$> choices r = ["hello"] /\
    usage r = Some u /\ u !! "total_tokens" = Some 6.
Proof. eexists. eexists. repeat split. Qed.

End GatewayFacts.

(* ===================================================================== *)
(** ** Properties of the credential resolver *)
(* ===================================================================== *)

Module AuthFacts.
Import Py Auth.

(** A signal is present when its variable is set to a non-empty string:
    this is the test [if os.getenv(...)] makes. *)
Definition present (w : world) (key : string) : bool := opt_str_truthy (getenv w key).

(** The same world with another environment. *)
Definition with_environ (w : world) (env : gmap string string) : world :=
  {| environ := env;
     session_error := session_error w;
     get_caller_identity := get_caller_identity w |}.

Lemma detect_bearer (w : world) :
  present w "AWS_BEARER_TOKEN_BEDROCK" = true -> _detect_auth_method w = BEDROCK_API_KEY.
Proof. unfold present, _detect_auth_method. now intros ->. Qed.

Lemma detect_profile (w : world) :
  present w "AWS_BEARER_TOKEN_BEDROCK" = false ->
  present w "AWS_PROFILE" = true ->
  _detect_auth_method w = SSO_PROFILE.
Proof. unfold present, _detect_auth_method. now intros -> ->. Qed.

Lemma detect_env_vars (w : world) :
  present w "AWS_BEARER_TOKEN_BEDROCK" = false ->
  present w "AWS_PROFILE" = false ->
  present w "AWS_ACCESS_KEY_ID" = true ->
  present w "AWS_SECRET_ACCESS_KEY" = true ->
  _detect_auth_method w = ENV_VARS.
Proof. unfold present, _detect_auth_method. now intros -> -> -> ->. Qed.

Lemma detect_cli (w : world) :
  present w "AWS_BEARER_TOKEN_BEDROCK" = false ->
  present w "AWS_PROFILE" = false ->
  present w "AWS_ACCESS_KEY_ID" && present w "AWS_SECRET_ACCESS_KEY" = false ->
  _detect_auth_method w = AWS_CLI.
Proof. unfold present, _detect_auth_method. now intros -> -> ->. Qed.

(** C2.  Detection follows the priority order bearer key, then SSO
    profile, then the access-key pair, then the CLI default; and two
    environments that agree on a present signal and on every signal of
    higher priority are detected alike, whatever the signals of lower
    priority are. *)
Theorem detect_auth_method_priority (w : world) :
  (present w "AWS_BEARER_TOKEN_BEDROCK" = true ->
     _detect_auth_method w = BEDROCK_API_KEY) /\
  (present w "AWS_BEARER_TOKEN_BEDROCK" = false ->
   present w "AWS_PROFILE" = true ->
     _detect_auth_method w = SSO_PROFILE) /\
  (present w "AWS_BEARER_TOKEN_BEDROCK" = false ->
   present w "AWS_PROFILE" = false ->
   present w "AWS_ACCESS_KEY_ID" = true ->
   present w "AWS_SECRET_ACCESS_KEY" = true ->
     _detect_auth_method w = ENV_VARS) /\
  (present w "AWS_BEARER_TOKEN_BEDROCK" = false ->
   present w "AWS_PROFILE" = false ->
   present w "AWS_ACCESS_KEY_ID" && present w "AWS_SECRET_ACCESS_KEY" = false ->
     _detect_auth_method w = AWS_CLI) /\
  (forall w',
     present w "AWS_BEARER_TOKEN_BEDROCK" = true ->
     getenv w' "AWS_BEARER_TOKEN_BEDROCK" = getenv w "AWS_BEARER_TOKEN_BEDROCK" ->
     _detect_auth_method w' = _detect_auth_method w) /\
  (forall w',
     present w "AWS_PROFILE" = true ->
     getenv w' "AWS_BEARER_TOKEN_BEDROCK" = getenv w "AWS_BEARER_TOKEN_BEDROCK" ->
     getenv w' "AWS_PROFILE" = getenv w "AWS_PROFILE" ->
     _detect_auth_method w' = _detect_auth_method w).
Proof.
  repeat split.
  - apply detect_bearer.
  - apply detect_profile.
  - apply detect_env_vars.
  - apply detect_cli.
  - intros w' Hp Hb.
    rewrite (detect_bearer w Hp). apply detect_bearer.
    unfold present. now rewrite Hb.
  - intros w' Hp Hb Hprof.
    unfold present in Hp. unfold _detect_auth_method. rewrite Hb, Hprof, Hp.
    reflexivity.
Qed.

(** Setting or unsetting any variable other than the bearer key does not
    change the outcome while the bearer key is present; likewise for the
    SSO profile and the variables below it. *)
Lemma detect_lower_priority_update (w : world) (key : string) (v : option string) :
  let env' := match v with
              | Some x => <[key := x]> (environ w)
              | None => delete key (environ w)
              end in
  (present w "AWS_BEARER_TOKEN_BEDROCK" = true ->
   key <> "AWS_BEARER_TOKEN_BEDROCK" ->
   _detect_auth_method (with_environ w env') = BEDROCK_API_KEY) /\
  (present w "AWS_BEARER_TOKEN_BEDROCK" = false ->
   present w "AWS_PROFILE" = true ->
   key <> "AWS_BEARER_TOKEN_BEDROCK" -> key <> "AWS_PROFILE" ->
   _detect_auth_method (with_environ w env') = SSO_PROFILE).
Proof.
  intros env'.
  assert (Hother : forall k, key <> k -> getenv (with_environ w env') k = getenv w k).
  { intros k Hk. unfold getenv, with_environ, env'. simpl.
    destruct v; [now rewrite lookup_insert_ne | now rewrite lookup_delete_ne]. }
  split.
  - intros Hp Hk. apply detect_bearer. unfold present.
    rewrite Hother by exact Hk. exact Hp.
  - intros Hb Hp Hk1 Hk2. apply detect_profile; unfold present.
    + rewrite Hother by exact Hk1. exact Hb.
    + rewrite Hother by exact Hk2. exact Hp.
Qed.

(** The bearer key wins over every other signal. *)
Lemma detect_auth_method_priority_witness :
  let w := {| environ := <["AWS_BEARER_TOKEN_BEDROCK" := "token"]>
                         (<["AWS_PROFILE" := "dev"]>
                         (<["AWS_ACCESS_KEY_ID" := "AKIA"]>
                         (<["AWS_SECRET_ACCESS_KEY" := "secret"]> ∅)));
              session_error := fun _ => None;
              get_caller_identity := fun _ _ => inr ∅ |} in
  let w' := with_environ w (<["AWS_BEARER_TOKEN_BEDROCK" := "token"]> ∅) in
  present w "AWS_BEARER_TOKEN_BEDROCK" = true /\
  _detect_auth_method w = BEDROCK_API_KEY /\
  _detect_auth_method w' = _detect_auth_method w.
Proof.
  intros w w'.
  destruct (detect_auth_method_priority w) as (H1 & _ & _ & _ & H5 & _).
  split; [reflexivity |]. split; [exact (H1 eq_refl) | exact (H5 w' eq_refl eq_refl)].
Defined.

(** *** Verification after construction *)

(** What [_verify_credentials] turns an exception of the identity check
    into: for a [ClientError] the handler runs
    [raise NoCredentialsError(msg)], which ends in the [TypeError] of the
    constructor call; any other exception is left as it is. *)
Definition verify_error (e : pyexc) : pyexc :=
  if exc_class_eqb (exc_type e) ClientError
  then NoCredentialsError_positional ("Invalid credentials: " +:+ exc_str e)
  else e.

(** The state after one more identity check on [session]. *)
Definition after_check (s : state) (session : Session) : state :=
  {| self := self s; sts_calls := sts_calls s ++ [session] |}.

(** A session built by any branch is stored in [self._session]. *)
Lemma build_session_stores (w : world) (method : option AuthMethod)
    (s0 s1 : state) (session : Session) :
  build_session w method s0 = (inr session, s1) ->
  _session (self s1) = Some session.
Proof.
  unfold build_session, mbind, mget, mput, mret. simpl.
  match goal with
  | |- context [match ?b ?s with _ => _ end] => destruct (b s) as [[e | sess] s'] eqn:Hb
  end.
  - discriminate.
  - intros H. injection H as <- <-. reflexivity.
Qed.

Lemma verify_credentials_run (w : world) (s : state) (session : Session) :
  _session (self s) = Some session ->
  _verify_credentials w s =
  (match get_caller_identity w (length (sts_calls s)) session with
   | inr _ => inr tt
   | inl e => inl (verify_error e)
   end, after_check s session).
Proof.
  intros H.
  unfold _verify_credentials, mbind, mget, except_raise, sts_identity, mret, verify_error.
  simpl. rewrite H. simpl.
  destruct (get_caller_identity w (length (sts_calls s)) session) as [e | id]; simpl.
  - now destruct (exc_class_eqb (exc_type e) ClientError).
  - reflexivity.
Qed.

(** Whatever branch built the session, the identity check is called on
    it next; [authenticate] returns the session only when that check
    returns; a [ClientError] of the check leaves [authenticate] as the
    [TypeError] of the handler's constructor call, never as
    [NoCredentialsError], and any other exception of the check is raised
    unchanged. *)
Lemma authenticate_verifies (w : world) (method : option AuthMethod) (s0 : state) :
  (forall session s1,
     build_session w method s0 = (inr session, s1) ->
     authenticate w method s0 =
     (match get_caller_identity w (length (sts_calls s1)) session with
      | inr _ => inr session
      | inl e => inl (verify_error e)
      end, after_check s1 session)) /\
  (forall session s2,
     authenticate w method s0 = (inr session, s2) ->
     exists calls identity,
       sts_calls s2 = calls ++ [session] /\
       get_caller_identity w (length calls) session = inr identity) /\
  (forall e, exc_type e = ClientError ->
     exc_type (verify_error e) = TypeError) /\
  (forall e, exc_type e <> ClientError -> verify_error e = e).
Proof.
  assert (Hrun : forall session s1,
     build_session w method s0 = (inr session, s1) ->
     authenticate w method s0 =
     (match get_caller_identity w (length (sts_calls s1)) session with
      | inr _ => inr session
      | inl e => inl (verify_error e)
      end, after_check s1 session)).
  { intros session s1 Hb.
    pose proof (build_session_stores w method s0 s1 session Hb) as Hs.
    unfold authenticate, mbind. rewrite Hb.
    rewrite (verify_credentials_run w s1 session Hs).
    now destruct (get_caller_identity w (length (sts_calls s1)) session). }
  split; [exact Hrun |]. split; [| split].
  - intros session s2 Ha.
    destruct (build_session w method s0) as [[e | sess] s1] eqn:Hb.
    + unfold authenticate, mbind in Ha. rewrite Hb in Ha. discriminate Ha.
    + rewrite (Hrun sess s1 eq_refl) in Ha.
      destruct (get_caller_identity w (length (sts_calls s1)) sess) as [e | id] eqn:Hid;
        [discriminate Ha |].
      injection Ha as <- <-. exists (sts_calls s1), id. split; [reflexivity | exact Hid].
  - intros e He. unfold verify_error. rewrite He. reflexivity.
  - intros e He. unfold verify_error.
    destruct (exc_type e); try reflexivity. now contradiction He.
Qed.

(** A world with the access-key pair set, where the identity check
    cannot reach its endpoint. *)
Definition unreachable : pyexc :=
  PyExc (OtherError "EndpointConnectionError")
        "Could not connect to the endpoint URL".

Definition world_unreachable : world :=
  {| environ := <["AWS_ACCESS_KEY_ID" := "AKIA"]>
                (<["AWS_SECRET_ACCESS_KEY" := "secret"]> ∅);
     session_error := fun _ => None;
     get_caller_identity := fun _ _ => inl unreachable |}.

Definition session_env_vars : Session :=
  {| profile_name := None; aws_access_key_id := Some "AKIA";
     aws_secret_access_key := Some "secret"; region_name := "us-east-1" |}.

(** The session is built, its verification fails, and the failure
    reaches the caller as the connection error, not as [NoCredentialsError]. *)
Lemma authenticate_other_error :
  fst (build_session world_unreachable None (init "us-east-1")) = inr session_env_vars /\
  get_caller_identity world_unreachable 0 session_env_vars = inl unreachable /\
  fst (authenticate world_unreachable None (init "us-east-1")) = inl unreachable /\
  exc_class_eqb (exc_type unreachable) NoCredentialsError = false.
Proof. repeat split; vm_compute; reflexivity. Qed.

(** The same world when the identity check fails with a [ClientError] from
    its [k]-th call on: the check inside a branch is call 0 and the
    verification call 1, except for the environment-variable branch, which
    makes no check of its own. *)
Definition denied : pyexc :=
  PyExc ClientError
    ("An error occurred (AccessDenied) when calling the GetCallerIdentity "
     +:+ "operation: Access denied").

Definition world_denied_from (k : nat) : world :=
  {| environ := <["AWS_BEARER_TOKEN_BEDROCK" := "token"]>
                (<["AWS_PROFILE" := "dev"]> (environ world_unreachable));
     session_error := fun _ => None;
     get_caller_identity := fun n _ => if (n <? k)%nat then inr ∅ else inl denied |}.

Definition session_cli : Session :=
  {| profile_name := None; aws_access_key_id := None;
     aws_secret_access_key := None; region_name := "us-east-1" |}.

Definition session_profile : Session :=
  {| profile_name := Some "dev"; aws_access_key_id := None;
     aws_secret_access_key := None; region_name := "us-east-1" |}.

(** C5.  The claim at the input where the code departs from it: each of
    the four branches builds its session, the verification call that
    follows fails with a [ClientError], and [authenticate] raises the
    [TypeError] of [NoCredentialsError(msg)] called with a positional
    argument in place of the [NoCredentialsError] the handler was written
    to raise.  No session is returned. *)
Theorem authenticate_client_error :
  let type_error :=
    PyExc TypeError
      "BotoCoreError.__init__() takes 1 positional argument but 2 were given" in
  fst (build_session (world_denied_from 0) (Some ENV_VARS) (init "us-east-1")) =
    inr session_env_vars /\
  fst (build_session (world_denied_from 1) (Some AWS_CLI) (init "us-east-1")) =
    inr session_cli /\
  fst (build_session (world_denied_from 1) (Some SSO_PROFILE) (init "us-east-1")) =
    inr session_profile /\
  fst (build_session (world_denied_from 1) (Some BEDROCK_API_KEY) (init "us-east-1")) =
    inr session_cli /\
  get_caller_identity (world_denied_from 0) 0 session_env_vars = inl denied /\
  get_caller_identity (world_denied_from 1) 1 session_cli = inl denied /\
  get_caller_identity (world_denied_from 1) 1 session_profile = inl denied /\
  exc_type denied = ClientError /\
  fst (authenticate (world_denied_from 0) (Some ENV_VARS) (init "us-east-1")) =
    inl type_error /\
  fst (authenticate (world_denied_from 1) (Some AWS_CLI) (init "us-east-1")) =
    inl type_error /\
  fst (authenticate (world_denied_from 1) (Some SSO_PROFILE) (init "us-east-1")) =
    inl type_error /\
  fst (authenticate (world_denied_from 1) (Some BEDROCK_API_KEY) (init "us-east-1")) =
    inl type_error /\
  fst (authenticate (world_denied_from 1) None (init "us-east-1")) = inl type_error /\
  exc_class_eqb (exc_type type_error) NoCredentialsError = false.
Proof. repeat split; vm_compute; reflexivity. Qed.

(** A [ClientError] of the check made inside a branch is not handled
    there: it leaves [authenticate] as it is, before any verification. *)
Lemma authenticate_branch_client_error :
  fst (authenticate (world_denied_from 0) (Some AWS_CLI) (init "us-east-1")) = inl denied /\
  fst (authenticate (world_denied_from 0) (Some SSO_PROFILE) (init "us-east-1")) = inl denied /\
  fst (authenticate (world_denied_from 0) (Some BEDROCK_API_KEY) (init "us-east-1")) =
    inl denied.
Proof. repeat split; vm_compute; reflexivity. Qed.

(** The general statement at the environment-variable branch. *)
Lemma authenticate_verifies_witness :
  let w := world_denied_from 0 in
  fst (build_session w (Some ENV_VARS) (init "us-east-1")) = inr session_env_vars /\
  fst (authenticate w (Some ENV_VARS) (init "us-east-1")) =
    inl (NoCredentialsError_positional ("Invalid credentials: " +:+ exc_str denied)).
Proof.
  intros w.
  destruct (authenticate_verifies w (Some ENV_VARS) (init "us-east-1")) as (Hrun & _).
  assert (Hb : build_session w (Some ENV_VARS) (init "us-east-1") =
               (inr session_env_vars,
                snd (build_session w (Some ENV_VARS) (init "us-east-1"))))
    by (vm_compute; reflexivity).
  split; [now rewrite Hb |].
  rewrite (Hrun _ _ Hb). reflexivity.
Defined.

End AuthFacts.

(* ===================================================================== *)
(** ** Properties of the usage tracker *)
(* ===================================================================== *)

Module TrackerFacts.
Import Py Tracker.

Definition sonnet_prices : gmap string float :=
  <["input" := 3.00%float]> (<["output" := 15.00%float]> ∅).

Definition haiku_prices : gmap string float :=
  <["input" := 0.25%float]> (<["output" := 1.25%float]> ∅).

(** The price table has exactly the two entries of the class attribute. *)
Lemma PRICING_entries (model : string) (prices : gmap string float) :
  PRICING !! model = Some prices ->
  (model = sonnet_id /\ prices = sonnet_prices) \/
  (model = haiku_id /\ prices = haiku_prices).
Proof.
  unfold PRICING. intros H.
  apply lookup_insert_Some in H as [[<- <-] | [_ H]]; [now left |].
  apply lookup_insert_Some in H as [[<- <-] | [_ H]]; [now right |].
  now rewrite lookup_empty in H.
Qed.

Lemma PRICING_fallback : subscript PRICING haiku_id = ret haiku_prices.
Proof. reflexivity. Qed.

(** *** Division by a million *)

(** The least token count whose division by [1_000_000] overflows. *)
Definition token_limit : Z := overflow_threshold * 1000000.

Lemma token_limit_large : 2 ^ 53 < token_limit.
Proof. vm_compute. reflexivity. Qed.

(** The value of [n / 1_000_000] where the division returns. *)
Definition per_million (n : Z) : float :=
  match int_true_div n 1000000 with
  | inr x => x
  | inl _ => nan
  end.

(** Below the limit the division returns. *)
Lemma int_true_div_returns (n : Z) :
  0 <= n < token_limit ->
  int_true_div n 1000000 = inr (per_million n).
Proof.
  intros Hn.
  assert (H : exists x, int_true_div n 1000000 = inr x).
  { unfold int_true_div, ret, raise.
    change (1000000 =? 0) with false. change (Z.abs 1000000) with 1000000. cbv iota.
    destruct (Z.abs n =? 0); [eexists; reflexivity |].
    destruct (Z.leb_spec (overflow_threshold * 1000000) (Z.abs n)) as [Hle | _];
      [| eexists; reflexivity].
    exfalso. unfold token_limit in Hn. lia. }
  destruct H as [x Hx]. unfold per_million. now rewrite Hx.
Qed.

(** From the limit on it raises [OverflowError]. *)
Lemma int_true_div_overflow (n : Z) :
  token_limit <= n ->
  int_true_div n 1000000 =
  inl (PyExc (OtherError "OverflowError") "integer division result too large for a float").
Proof.
  intros Hn.
  assert (Hpos : 0 < token_limit) by (vm_compute; reflexivity).
  unfold int_true_div, ret, raise.
  change (1000000 =? 0) with false. change (Z.abs 1000000) with 1000000. cbv iota.
  destruct (Z.eqb_spec (Z.abs n) 0) as [H0 | _]; [lia |].
  destruct (Z.leb_spec (overflow_threshold * 1000000) (Z.abs n)) as [_ | Hlt];
    [reflexivity |].
  exfalso. unfold token_limit in Hn, Hpos. lia.
Qed.

(** A million tokens are one unit of price, and no tokens none. *)
Lemma per_million_values :
  per_million 1000000 = 1%float /\ per_million 0 = 0%float.
Proof. split; vm_compute; reflexivity. Qed.

(** The cost of a request at given prices. *)
Definition cost_at (price_in price_out : float) (input output : Z) : cost :=
  let ic := PrimFloat.mul (per_million input) price_in in
  let oc := PrimFloat.mul (per_million output) price_out in
  {| cost_input := ic; cost_output := oc; cost_total := PrimFloat.add ic oc |}.

(** [_calculate_cost] returns for every model id and token counts below
    the limit: at the model's own prices when it is in the table, at the
    haiku prices otherwise. *)
Lemma calculate_cost_total (model : string) (input output : Z) :
  0 <= input < token_limit ->
  0 <= output < token_limit ->
  _calculate_cost model input output =
  ret (match PRICING !! model with
       | Some _ =>
           if String.eqb model sonnet_id
           then cost_at 3.00%float 15.00%float input output
           else cost_at 0.25%float 1.25%float input output
       | None => cost_at 0.25%float 1.25%float input output
       end).
Proof.
  intros Hi Ho.
  unfold _calculate_cost. rewrite PRICING_fallback. unfold bind, ret.
  rewrite (int_true_div_returns input Hi), (int_true_div_returns output Ho).
  destruct (PRICING !! model) as [prices |] eqn:Hm; simpl.
  - destruct (PRICING_entries model prices Hm) as [[-> ->] | [-> ->]]; reflexivity.
  - reflexivity.
Qed.

(** An input count at or beyond the limit makes [_calculate_cost] raise,
    whatever the model. *)
Lemma calculate_cost_overflow (model : string) (input output : Z) :
  token_limit <= input ->
  _calculate_cost model input output =
  inl (PyExc (OtherError "OverflowError") "integer division result too large for a float").
Proof.
  intros Hi.
  unfold _calculate_cost. rewrite PRICING_fallback. unfold bind, ret.
  now rewrite (int_true_div_overflow input Hi).
Qed.


(** The same from the limit on, for every model and tracker: the bound of
    the statement below cannot be raised. *)
Lemma record_usage_beyond_limit (utcnow : nat -> string) (t : nat) (tr : UsageTracker)
    (model : string) (input output : Z) :
  token_limit <= input ->
  record_usage utcnow t tr model input output =
    (inl (PyExc (OtherError "OverflowError")
            "integer division result too large for a float"),
     {| log_group := log_group tr;
        usage_history := usage_history tr ++ [new_TokenUsage (utcnow t) input output];
        cost_history := cost_history tr |}).
Proof.
  intros Hi. unfold record_usage. now rewrite (calculate_cost_overflow model input output Hi).
Qed.



(** The listed prices, reached with a million input tokens. *)
Example record_usage_million :
  let tr := {| log_group := None; usage_history := []; cost_history := [] |} in
  let utcnow := fun _ : nat => "2025-01-18T00:00:00" in
  (input_cost <$> (snd <$> sum_rect (fun _ => option _) (fun _ => None) Some
     (fst (record_usage utcnow 0 tr sonnet_id 1000000 0)))) = Some 3.00%float /\
  (input_cost <$> (snd <$> sum_rect (fun _ => option _) (fun _ => None) Some
     (fst (record_usage utcnow 0 tr haiku_id 1000000 0)))) = Some 0.25%float.
Proof. split; vm_compute; reflexivity. Qed.

End TrackerFacts.

(* ===================================================================== *)
(** ** More on the stream translator and the handler *)
(* ===================================================================== *)

Module GatewayMoreFacts.
Import Py Json Gateway StringFacts GatewayFacts.

(** *** Events that raise *)

(** [if key in x: ... x[key]] on a value that is not a dict: a list or a
    string raises at the subscript when it contains the key and goes on to
    [otherwise] when it does not; any other value raises at [in]. *)
Definition member_error (key : string) (x : json) (otherwise : option pyexc)
    : option pyexc :=
  match x with
  | JObj _ => None
  | JArr xs =>
      if existsb (fun y => eq_str y key) xs
      then Some (PyExc TypeError "list indices must be integers or slices, not str")
      else otherwise
  | JStr s =>
      if str_contains key s
      then Some (PyExc TypeError "string indices must be integers, not 'str'")
      else otherwise
  | _ => Some (PyExc TypeError
                 ("argument of type '" +:+ type_name x +:+ "' is not iterable"))
  end.

(** The exception that the body of the loop raises on an event, read off
    the event: the exception of [json.loads]; for a chunk that is not a
    dict, the one of its first misuse, at the latest [chunk.get]; for a
    dict whose ["delta"] is not a dict, the one of [delta]'s misuse, if
    any.  Every other event is handled without an exception. *)
Definition event_error (ev : event) : option pyexc :=
  match ev with
  | EvNoChunk => None
  | EvChunk (inl e) => Some e
  | EvChunk (inr (JObj items)) =>
      match lookup_item "delta" items with
      | None => None
      | Some delta => member_error "text" delta None
      end
  | EvChunk (inr chunk) =>
      member_error "delta" chunk
        (Some (PyExc AttributeError
                 ("'" +:+ type_name chunk +:+ "' object has no attribute 'get'")))
  end.

(** An event that is handled without an exception and does not end the loop. *)
Definition passes (ev : event) : Prop :=
  event_error ev = None /\ is_message_stop ev = false.

Section StreamOrder.

Variable float_repr : float -> string.
Variable now : nat -> Z.
Variable model_id : string.

#[local] Abbreviation content_frame := (Gateway.content_frame float_repr now model_id).
#[local] Abbreviation error_frame := (Gateway.error_frame float_repr).
#[local] Abbreviation handle_event := (Gateway.handle_event float_repr now model_id).
#[local] Abbreviation stream_loop := (Gateway.stream_loop float_repr now model_id).
#[local] Abbreviation stream_bedrock_response :=
  (Gateway.stream_bedrock_response float_repr now model_id).
#[local] Abbreviation events_consumed := (Gateway.events_consumed float_repr now model_id).

(** The text fragment a well-formed event carries, if it carries one. *)
Definition event_text (ev : event) : option json :=
  match ev with
  | EvChunk (inr (JObj items)) =>
      match lookup_item "delta" items with
      | Some (JObj d) => lookup_item "text" d
      | _ => None
      end
  | _ => None
  end.

(** One content frame per text, the clock read twice for each. *)
Fixpoint frames_from (t : nat) (texts : list json) : list string :=
  match texts with
  | [] => []
  | x :: rest => content_frame t x :: frames_from (S (S t)) rest
  end.

Lemma handle_event_text (t : nat) (ev : event) :
  well_formed ev = true ->
  handle_event t ev =
  (match event_text ev with Some x => [content_frame t x] | None => [] end,
   match event_text ev with Some _ => S (S t) | None => t end,
   if is_message_stop ev then Break else Continue).
Proof.
  destruct ev as [| [e | chunk]]; simpl; try discriminate; [reflexivity |].
  destruct chunk as [| b | z | f | s | xs | items]; try discriminate.
  unfold Gateway.delta_part, bind, ret, py_in, py_getitem. simpl.
  destruct (lookup_item "delta" items) as [[| b | z | f | s | xs | d] |];
    try discriminate; intros _; simpl.
  - destruct (lookup_item "text" d) as [text |]; simpl;
      now destruct (eq_str (default JNull (lookup_item "type" items)) "message_stop").
  - now destruct (eq_str (default JNull (lookup_item "type" items)) "message_stop").
Qed.

(** The loop over well-formed events without a stop event. *)
Lemma stream_loop_texts (evs : list event) (fail : option pyexc) :
  Forall (fun e => well_formed e = true /\ is_message_stop e = false) evs ->
  forall t, stream_loop t evs fail =
            (frames_from t (omap event_text evs), length evs, fail).
Proof.
  intros H. induction H as [| a evs [Ha Hns] _ IH]; intros t; [reflexivity |].
  simpl. rewrite (handle_event_text t a Ha), Hns.
  destruct (event_text a) as [x |]; simpl; now rewrite IH.
Qed.

Lemma stream_loop_texts_stop (pre : list event) (ev : event) (rest : list event)
    (fail : option pyexc) :
  Forall (fun e => well_formed e = true /\ is_message_stop e = false) pre ->
  well_formed ev = true -> is_message_stop ev = true ->
  forall t, stream_loop t (pre ++ ev :: rest) fail =
            (frames_from t (omap event_text (pre ++ [ev])) ++ [done_frame],
             S (length pre), None).
Proof.
  intros H Hwf Hstop. induction H as [| a pre [Ha Hns] _ IH]; intros t.
  - simpl. rewrite (handle_event_text t ev Hwf), Hstop.
    now destruct (event_text ev).
  - simpl. rewrite (handle_event_text t a Ha), Hns.
    destruct (event_text a) as [x |]; simpl; now rewrite IH.
Qed.

(** X1.  For a provider stream of well-formed events: the frames are one
    content frame for each event that carries a text fragment, in the
    order of the events and with the fragment as its delta content;
    events without a fragment yield nothing.  They are followed by the
    sentinel when the stream reaches a stop event, by the error frame
    when its iterator fails, and by nothing when it just ends. *)
Theorem stream_frames_in_order
    (client : string -> string -> result (option event_stream))
    (request_body : json) (pre : list event) :
  Forall (fun e => well_formed e = true /\ is_message_stop e = false) pre ->
  (forall fail,
     client model_id (dumps float_repr request_body) =
       inr (Some {| events := pre; failure := fail |}) ->
     stream_bedrock_response client request_body =
       frames_from 0 (omap event_text pre) ++
       match fail with Some e => [error_frame (exc_str e)] | None => [] end) /\
  (forall ev rest fail,
     client model_id (dumps float_repr request_body) =
       inr (Some {| events := pre ++ ev :: rest; failure := fail |}) ->
     well_formed ev = true -> is_message_stop ev = true ->
     stream_bedrock_response client request_body =
       frames_from 0 (omap event_text (pre ++ [ev])) ++ [done_frame]).
Proof.
  intros Hpre. split.
  - intros fail Hcl.
    unfold Gateway.stream_bedrock_response, Gateway.stream_run, Gateway.try_body.
    rewrite Hcl. simpl. now rewrite (stream_loop_texts pre fail Hpre).
  - intros ev rest fail Hcl Hwf Hstop.
    unfold Gateway.stream_bedrock_response, Gateway.stream_run, Gateway.try_body.
    rewrite Hcl. simpl.
    rewrite (stream_loop_texts_stop pre ev rest fail Hpre Hwf Hstop). simpl.
    now rewrite app_nil_r.
Qed.

(** Only a stop event makes the loop break. *)
Lemma handle_event_break (t : nat) (ev : event) (fs : list string) (t' : nat) :
  handle_event t ev = (fs, t', Break) -> is_message_stop ev = true.
Proof.
  unfold Gateway.handle_event.
  destruct ev as [| [e | chunk]]; try discriminate.
  destruct (Gateway.delta_part float_repr now model_id t chunk) as [e | [frames t1]];
    try discriminate.
  destruct chunk as [| b | z | f | s | xs | items]; try discriminate. simpl.
  destruct (eq_str (default JNull (lookup_item "type" items)) "message_stop") eqn:Hty;
    [reflexivity | discriminate].
Qed.

(** Without a stop event the loop yields content frames only. *)
Lemma stream_loop_without_stop (evs : list event) (fail : option pyexc) :
  Forall (fun e => is_message_stop e = false) evs ->
  forall t fs n r, stream_loop t evs fail = (fs, n, r) ->
                   content_frames float_repr now model_id fs.
Proof.
  intros H. induction H as [| a evs Ha _ IH]; intros t fs n r; simpl.
  - intros E. injection E as <- _ _. constructor.
  - destruct (handle_event t a) as [[frames t1] o] eqn:He.
    pose proof (handle_event_frames _ _ _ _ _ _ _ _ He) as Hfs.
    destruct o as [| | e].
    + destruct (stream_loop t1 evs fail) as [[frames' n'] r'] eqn:Hl.
      intros E. injection E as <- _ _.
      apply content_frames_app; [exact Hfs | exact (IH _ _ _ _ Hl)].
    + apply handle_event_break in He. congruence.
    + intros E. now injection E as <- _ _.
Qed.

(** X2.  The sentinel comes from a stop event only: when the frames
    contain it, the provider gave a stream and one of its events has the
    type [message_stop].  A stream that ends, or fails, without such an
    event is never closed by the sentinel. *)
Theorem sentinel_needs_stop_event
    (client : string -> string -> result (option event_stream))
    (request_body : json) :
  count is_done_frame (stream_bedrock_response client request_body) = 1%nat ->
  exists s pre ev rest,
    client model_id (dumps float_repr request_body) = inr (Some s) /\
    events s = pre ++ ev :: rest /\
    is_message_stop ev = true.
Proof.
  unfold Gateway.stream_bedrock_response, Gateway.stream_run, Gateway.try_body.
  destruct (client model_id (dumps float_repr request_body)) as [e | [s |]];
    simpl; try discriminate.
  destruct (Forall_Exists_dec (fun e => is_message_stop e = false)
              (fun e => is_message_stop e = true)
              (fun e => match is_message_stop e as b
                              return {b = false} + {b = true} with
                        | true => right eq_refl
                        | false => left eq_refl
                        end) (events s)) as [Hall | Hex].
  - destruct (stream_loop 0 (events s) (failure s)) as [[fs n] r] eqn:Hl. simpl.
    pose proof (stream_loop_without_stop _ _ Hall _ _ _ _ Hl) as Hcs.
    rewrite count_app, (count_content_frames _ _ _ _ _ (content_not_done _ _ _) Hcs).
    destruct r; discriminate.
  - intros _. apply Exists_exists in Hex as [ev [Hin Hev]].
    apply list_elem_of_split in Hin as [pre [rest Heq]].
    now exists s, pre, ev, rest.
Qed.

(** *** Exceptions while the stream is read *)

Lemma frames_from_content (texts : list json) :
  forall t, content_frames float_repr now model_id (frames_from t texts).
Proof.
  induction texts as [| x texts IH]; intros t; [constructor |].
  constructor; [now exists t, x | apply IH].
Qed.

(** An event with an exception: the body of the loop raises it, before
    it yields anything. *)
Lemma handle_event_error (t : nat) (ev : event) (e : pyexc) :
  event_error ev = Some e -> handle_event t ev = ([], t, Raise e).
Proof.
  destruct ev as [| [e0 | chunk]]; simpl; [discriminate | now intros [= ->] |].
  unfold Gateway.delta_part, member_error, bind, ret, raise, py_in, py_getitem, py_get.
  destruct chunk as [| b | z | f | s | xs | items]; simpl;
    try (now intros [= <-]).
  - destruct (str_contains "delta" s); now intros [= <-].
  - destruct (existsb (fun y => eq_str y "delta") xs); now intros [= <-].
  - destruct (lookup_item "delta" items) as [[| b | z | f | s | xs | d] |]; simpl;
      try discriminate; try (now intros [= <-]).
    + destruct (str_contains "text" s); [now intros [= <-] | discriminate].
    + destruct (existsb (fun y => eq_str y "text") xs); [now intros [= <-] | discriminate].
Qed.

(** An event without: the body yields the frame of its text, if it has
    one, and ends as a well-formed event does. *)
Lemma handle_event_quiet (t : nat) (ev : event) :
  event_error ev = None ->
  handle_event t ev =
  (match event_text ev with Some x => [content_frame t x] | None => [] end,
   match event_text ev with Some _ => S (S t) | None => t end,
   if is_message_stop ev then Break else Continue).
Proof.
  destruct ev as [| [e0 | chunk]]; simpl; [reflexivity | discriminate |].
  unfold Gateway.delta_part, member_error, bind, ret, raise, py_in, py_getitem, py_get.
  destruct chunk as [| b | z | f | s | xs | items]; simpl; try discriminate.
  - destruct (str_contains "delta" s); discriminate.
  - destruct (existsb (fun y => eq_str y "delta") xs); discriminate.
  - destruct (lookup_item "delta" items) as [[| b | z | f | s | xs | d] |]; simpl;
      try discriminate.
    + destruct (str_contains "text" s); [discriminate |]. intros _.
      now destruct (eq_str (default JNull (lookup_item "type" items)) "message_stop").
    + destruct (existsb (fun y => eq_str y "text") xs); [discriminate |]. intros _.
      now destruct (eq_str (default JNull (lookup_item "type" items)) "message_stop").
    + intros _. destruct (lookup_item "text" d) as [text |]; simpl;
        now destruct (eq_str (default JNull (lookup_item "type" items)) "message_stop").
    + intros _.
      now destruct (eq_str (default JNull (lookup_item "type" items)) "message_stop").
Qed.

(** The loop over events that pass. *)
Lemma stream_loop_passes (evs : list event) (fail : option pyexc) :
  Forall passes evs ->
  forall t, stream_loop t evs fail =
            (frames_from t (omap event_text evs), length evs, fail).
Proof.
  intros H. induction H as [| a evs [Ha Hns] _ IH]; intros t; [reflexivity |].
  simpl. rewrite (handle_event_quiet t a Ha), Hns.
  destruct (event_text a) as [x |]; simpl; now rewrite IH.
Qed.

(** The loop up to the first event with an exception: that event is the
    last one taken, and what follows it in the stream is of no account. *)
Lemma stream_loop_raises (pre : list event) (ev : event) (rest : list event)
    (fail : option pyexc) (e : pyexc) :
  Forall passes pre ->
  event_error ev = Some e ->
  forall t, stream_loop t (pre ++ ev :: rest) fail =
            (frames_from t (omap event_text pre), S (length pre), Some e).
Proof.
  intros H He. induction H as [| a pre [Ha Hns] _ IH]; intros t.
  - simpl. now rewrite (handle_event_error t ev e He).
  - simpl. rewrite (handle_event_quiet t a Ha), Hns.
    destruct (event_text a) as [x |]; simpl; now rewrite IH.
Qed.

(** Without an event that raises and without a failure of the iterator,
    no exception leaves the loop. *)
Lemma stream_loop_no_exception (evs : list event) :
  Forall (fun ev => event_error ev = None) evs ->
  forall t, snd (stream_loop t evs None) = None.
Proof.
  intros H. induction H as [| a evs Ha _ IH]; intros t; [reflexivity |].
  simpl. rewrite (handle_event_quiet t a Ha).
  destruct (is_message_stop a); [reflexivity |].
  specialize (IH (match event_text a with Some _ => S (S t) | None => t end)).
  destruct (stream_loop _ evs None) as [[frames' n] raised]. exact IH.
Qed.

(** One error frame after content frames: the counts. *)
Lemma error_frame_last (cs : list string) (msg : string) :
  content_frames float_repr now model_id cs ->
  count is_error_frame (cs ++ [error_frame msg]) = 1%nat /\
  count is_done_frame (cs ++ [error_frame msg]) = 0%nat /\
  count is_content_frame (cs ++ [error_frame msg]) = length cs.
Proof.
  intros Hcs. rewrite !count_app.
  rewrite (count_content_frames _ _ _ _ _ (content_not_error _ _ _) Hcs).
  rewrite (count_content_frames _ _ _ _ _ (content_not_done _ _ _) Hcs).
  rewrite (count_all_content _ _ _ _ Hcs).
  repeat split. unfold count. simpl. lia.
Qed.

(** C3.  When the provider response has no body, the generator yields
    the one error frame and nothing else, and takes no event.  An
    exception raised while the stream is read ends the run with exactly
    one error frame, the frame of that exception, after the content
    frames of the events read before it, and no event is taken after it:
    whether the invocation raises, or the iterator raises after events
    that passed, or the body of the loop raises on an event, whatever
    follows that event in the stream.  In every run there is at most one
    error frame and nothing follows it; and there is none when the
    invocation returns a stream, no event has an exception and the
    iterator does not fail. *)
Theorem stream_error_frame
    (client : string -> string -> result (option event_stream))
    (request_body : json) :
  (client model_id (dumps float_repr request_body) = inr None ->
     stream_bedrock_response client request_body = [error_frame "No response stream"] /\
     count is_error_frame (stream_bedrock_response client request_body) = 1%nat /\
     count is_content_frame (stream_bedrock_response client request_body) = 0%nat /\
     events_consumed client request_body = 0%nat) /\
  (forall e,
     client model_id (dumps float_repr request_body) = inl e ->
     stream_bedrock_response client request_body = [error_frame (exc_str e)] /\
     events_consumed client request_body = 0%nat) /\
  (forall pre e,
     client model_id (dumps float_repr request_body) =
       inr (Some {| events := pre; failure := Some e |}) ->
     Forall passes pre ->
     stream_bedrock_response client request_body =
       frames_from 0 (omap event_text pre) ++ [error_frame (exc_str e)] /\
     count is_error_frame (stream_bedrock_response client request_body) = 1%nat /\
     count is_done_frame (stream_bedrock_response client request_body) = 0%nat /\
     events_consumed client request_body = length pre) /\
  (forall pre ev rest fail e,
     client model_id (dumps float_repr request_body) =
       inr (Some {| events := pre ++ ev :: rest; failure := fail |}) ->
     Forall passes pre ->
     event_error ev = Some e ->
     stream_bedrock_response client request_body =
       frames_from 0 (omap event_text pre) ++ [error_frame (exc_str e)] /\
     count is_error_frame (stream_bedrock_response client request_body) = 1%nat /\
     count is_done_frame (stream_bedrock_response client request_body) = 0%nat /\
     events_consumed client request_body = S (length pre)) /\
  (forall evs,
     client model_id (dumps float_repr request_body) =
       inr (Some {| events := evs; failure := None |}) ->
     Forall (fun ev => event_error ev = None) evs ->
     count is_error_frame (stream_bedrock_response client request_body) = 0%nat) /\
  (count is_error_frame (stream_bedrock_response client request_body) <= 1)%nat /\
  (forall pre f post,
     stream_bedrock_response client request_body = pre ++ f :: post ->
     is_error_frame f = true ->
     post = []).
Proof.
  pose proof (count_content_frames float_repr now model_id is_error_frame) as Hzero.
  pose proof (content_not_error float_repr now model_id) as Hne.
  repeat apply conj.
  - intros Hcl.
    unfold Gateway.events_consumed, Gateway.stream_bedrock_response,
      Gateway.stream_run, Gateway.try_body.
    rewrite Hcl. repeat split.
  - intros e Hcl.
    unfold Gateway.events_consumed, Gateway.stream_bedrock_response,
      Gateway.stream_run, Gateway.try_body.
    rewrite Hcl. split; reflexivity.
  - intros pre e Hcl Hpre.
    unfold Gateway.events_consumed, Gateway.stream_bedrock_response,
      Gateway.stream_run, Gateway.try_body.
    rewrite Hcl. simpl. rewrite (stream_loop_passes pre (Some e) Hpre). simpl.
    destruct (error_frame_last (frames_from 0 (omap event_text pre)) (exc_str e)
                (frames_from_content _ _)) as (H1 & H2 & _).
    repeat split; assumption.
  - intros pre ev rest fail e Hcl Hpre He.
    unfold Gateway.events_consumed, Gateway.stream_bedrock_response,
      Gateway.stream_run, Gateway.try_body.
    rewrite Hcl. simpl. rewrite (stream_loop_raises pre ev rest fail e Hpre He). simpl.
    destruct (error_frame_last (frames_from 0 (omap event_text pre)) (exc_str e)
                (frames_from_content _ _)) as (H1 & H2 & _).
    repeat split; assumption.
  - intros evs Hcl Hq.
    unfold Gateway.stream_bedrock_response, Gateway.stream_run, Gateway.try_body.
    rewrite Hcl. simpl.
    pose proof (stream_loop_no_exception evs Hq 0%nat) as Hr.
    destruct (stream_loop 0 evs None) as [[fs n] r] eqn:Hl. simpl in Hr. subst r. simpl.
    rewrite app_nil_r.
    destruct (stream_loop_shape _ _ _ _ _ _ _ _ _ Hl) as [cs [Hcs [-> | [-> _]]]].
    + exact (Hzero cs Hne Hcs).
    + rewrite count_app, (Hzero cs Hne Hcs). reflexivity.
  - destruct (stream_shape float_repr now model_id client request_body)
      as [cs [Hcs [-> | [-> | [msg ->]]]]];
      rewrite ?count_app, (Hzero cs Hne Hcs); unfold count; simpl; lia.
  - intros pre f post Heq Hf.
    destruct (stream_shape float_repr now model_id client request_body)
      as [cs [Hcs [H | [H | [msg H]]]]]; rewrite H in Heq.
    + exfalso. apply (count_zero_no_member is_error_frame pre post f Hf).
      rewrite <- Heq. exact (Hzero cs Hne Hcs).
    + exfalso. apply (count_zero_no_member is_error_frame pre post f Hf).
      rewrite <- Heq, count_app, (Hzero cs Hne Hcs). reflexivity.
    + exact (nothing_after_last is_error_frame cs pre post (error_frame msg) f
               (Hzero cs Hne Hcs) Hf Heq).
Qed.

End StreamOrder.

(** A chunk that is not JSON between a delta and a stop event: the frame
    of the delta, the error frame, and the stop event is never read. *)
Lemma stream_error_frame_witness :
  let bad := PyExc JSONDecodeError "Expecting value: line 1 column 1 (char 0)" in
  let client := client_of {| events := [text_event "a"] ++ EvChunk (inl bad) :: [stop_event];
                             failure := None |} in
  Forall passes [text_event "a"] /\
  event_error (EvChunk (inl bad)) = Some bad /\
  stream_bedrock_response repr_example now_example "m" client (JObj []) =
    [ content_frame repr_example now_example "m" 0 (JStr "a");
      error_frame repr_example "Expecting value: line 1 column 1 (char 0)" ] /\
  count is_error_frame
    (stream_bedrock_response repr_example now_example "m" client (JObj [])) = 1%nat /\
  count is_done_frame
    (stream_bedrock_response repr_example now_example "m" client (JObj [])) = 0%nat /\
  events_consumed repr_example now_example "m" client (JObj []) = 2%nat.
Proof.
  intros bad client.
  assert (Hpre : Forall passes [text_event "a"]) by (repeat constructor).
  destruct (stream_error_frame repr_example now_example "m" client (JObj []))
    as (_ & _ & _ & Hev & _).
  destruct (Hev [text_event "a"] (EvChunk (inl bad)) [stop_event] None bad
              eq_refl Hpre eq_refl) as (Hout & Herr & Hdone & Hn).
  split; [exact Hpre |]. split; [reflexivity |].
  split; [exact Hout |]. split; [exact Herr |]. split; [exact Hdone | exact Hn].
Defined.

(** An iterator that fails after one delta. *)
Example stream_iterator_failure :
  let boom := PyExc (OtherError "EventStreamError") "boom" in
  stream_run repr_example now_example "m"
    (client_of {| events := [text_event "a"]; failure := Some boom |}) (JObj []) =
  ([ content_frame repr_example now_example "m" 0 (JStr "a");
     error_frame repr_example "boom" ], 1%nat).
Proof. reflexivity. Qed.

(** Chunks that decode to something else than a dict, and a dict whose
    delta is a number. *)
Example event_error_values :
  event_error (EvChunk (inr (JArr [JStr "delta"]))) =
    Some (PyExc TypeError "list indices must be integers or slices, not str") /\
  event_error (EvChunk (inr (JArr []))) =
    Some (PyExc AttributeError "'list' object has no attribute 'get'") /\
  event_error (EvChunk (inr (JInt 5))) =
    Some (PyExc TypeError "argument of type 'int' is not iterable") /\
  event_error (EvChunk (inr (JObj [("delta", JInt 5)]))) =
    Some (PyExc TypeError "argument of type 'int' is not iterable") /\
  event_error (EvChunk (inr (JObj [("delta", JArr [])]))) = None /\
  event_error (text_event "a") = None /\
  event_error stop_event = None.
Proof. repeat split. Qed.

Lemma stream_frames_in_order_witness :
  let evs := [text_event "a"; EvNoChunk; text_event "b"] in
  let client := client_of {| events := evs; failure := None |} in
  Forall (fun e => well_formed e = true /\ is_message_stop e = false) evs /\
  stream_bedrock_response repr_example now_example "m" client (JObj []) =
    [ content_frame repr_example now_example "m" 0 (JStr "a");
      content_frame repr_example now_example "m" 2 (JStr "b") ].
Proof.
  intros evs client.
  assert (Hpre : Forall (fun e => well_formed e = true /\ is_message_stop e = false) evs)
    by (repeat constructor).
  split; [exact Hpre |].
  exact (proj1 (stream_frames_in_order repr_example now_example "m" client (JObj [])
                  evs Hpre) None eq_refl).
Defined.

Lemma sentinel_needs_stop_event_witness :
  let s := {| events := [text_event "a"; stop_event]; failure := None |} in
  count is_done_frame
    (stream_bedrock_response repr_example now_example "m" (client_of s) (JObj [])) = 1%nat /\
  exists s' pre ev rest,
    client_of s "m" (dumps repr_example (JObj [])) = inr (Some s') /\
    events s' = pre ++ ev :: rest /\
    is_message_stop ev = true.
Proof.
  intros s. split; [reflexivity |].
  exact (sentinel_needs_stop_event repr_example now_example "m" (client_of s) (JObj [])
           eq_refl).
Defined.

(** *** The handler *)

(** A request with its system messages removed. *)
Definition without_system (request : ChatCompletionRequest) : ChatCompletionRequest :=
  {| model := model request;
     messages := List.filter (fun m => negb (is_system m)) (messages request);
     temperature := temperature request;
     max_tokens := max_tokens request;
     stream := stream request;
     top_p := top_p request;
     stop := stop request |}.

Lemma convert_messages_without_system (msgs : list ChatMessage) :
  convert_messages (List.filter (fun m => negb (is_system m)) msgs) = convert_messages msgs.
Proof.
  unfold convert_messages.
  rewrite (proj1 (convert_loop_spec _)), (proj1 (convert_loop_spec msgs)).
  now rewrite filter_dialogue_drop_system.
Qed.

(** X3.  System messages have no effect on what the handler does: the
    provider request has no ["system"] entry, and the handler's result
    for a request is its result for the same request without its system
    messages, for every authenticator, client and clock. *)
Theorem system_messages_have_no_effect
    (float_repr : float -> string) (now : nat -> Z)
    (authenticator : option (result bedrock_client))
    (request : ChatCompletionRequest) :
  request_entry request "system" = None /\
  bedrock_request (without_system request) = bedrock_request request /\
  chat_completions float_repr now authenticator (without_system request) =
    chat_completions float_repr now authenticator request.
Proof.
  assert (Hbody : bedrock_request (without_system request) = bedrock_request request).
  { unfold bedrock_request, without_system. simpl.
    now rewrite convert_messages_without_system. }
  split; [| split; [exact Hbody |]].
  - unfold request_entry, bedrock_request. simpl.
    destruct (top_p request) as [p |]; simpl;
      [destruct (float_truthy p); simpl |];
      destruct (stop request) as [[| x l] |]; reflexivity.
  - unfold chat_completions. rewrite Hbody. reflexivity.
Qed.

(** X4.  A streaming request answers with a stream whatever the provider
    does: when the invocation itself raises, the handler still returns
    the streaming response, whose only frame is the error frame of that
    exception; it is a failure to obtain the client that gives
    [HTTPException] 500. *)
Theorem streaming_failure_is_in_band
    (float_repr : float -> string) (now : nat -> Z)
    (client : bedrock_client) (request : ChatCompletionRequest) :
  stream request = true ->
  (exists frames,
     chat_completions float_repr now (Some (inr client)) request =
       StreamingResponse frames) /\
  (forall e,
     invoke_model_with_response_stream client
       (map_model_name (model request))
       (dumps float_repr (bedrock_request request)) = inl e ->
     chat_completions float_repr now (Some (inr client)) request =
       StreamingResponse [error_frame float_repr (exc_str e)]) /\
  (forall e,
     chat_completions float_repr now (Some (inl e)) request =
       HTTPException 500 (exc_str e)).
Proof.
  intros Hs. unfold chat_completions. rewrite Hs. split; [| split].
  - eexists. reflexivity.
  - intros e He.
    unfold stream_bedrock_response, stream_run, try_body. now rewrite He.
  - reflexivity.
Qed.

Lemma streaming_failure_is_in_band_witness :
  let client := {| invoke_model := fun _ _ => inl (PyExc ClientError "throttled");
                   invoke_model_with_response_stream :=
                     fun _ _ => inl (PyExc ClientError "throttled") |} in
  let request := {| model := "gpt-4";
                    messages := [ {| role := "user"; content := "hi" |} ];
                    temperature := 1%float; max_tokens := None; stream := true;
                    top_p := None; stop := None |} in
  stream request = true /\
  chat_completions repr_example now_example (Some (inr client)) request =
    StreamingResponse [error_frame repr_example "throttled"].
Proof.
  intros client request. split; [reflexivity |].
  exact (proj1 (proj2 (streaming_failure_is_in_band repr_example now_example
                         client request eq_refl))
           (PyExc ClientError "throttled") eq_refl).
Defined.

Lemma concat_text_missing (blocks : list content_block) (acc : string) :
  ~ Forall (fun b => block_type b = "text" -> is_Some (block_text b)) blocks ->
  concat_text acc blocks = raise (PyExc KeyError "'text'").
Proof.
  revert acc. induction blocks as [| b blocks IH]; intros acc H.
  - exfalso. apply H. constructor.
  - simpl. destruct (String.eqb (block_type b) "text") eqn:Hty.
    + destruct (block_text b) as [t |] eqn:Ht; [| reflexivity].
      apply IH. intros Hrest. apply H. constructor; [| exact Hrest].
      intros _. rewrite Ht. now exists t.
    + apply IH. intros Hrest. apply H. constructor; [| exact Hrest].
      intros Heq. rewrite Heq in Hty. discriminate.
Qed.

(** X5.  A request that does not stream ends in one of three ways.  When
    the invocation raises, the handler raises [HTTPException] 500 with
    the text of that exception.  When the response has a text block
    without text, it raises [HTTPException] 500 with the text of the
    [KeyError].  Otherwise it returns one completion whose model is the
    name the client sent, not the provider id the request was mapped to,
    and whose content is the concatenated text. *)
Theorem completion_outcomes
    (float_repr : float -> string) (now : nat -> Z)
    (client : bedrock_client) (request : ChatCompletionRequest) :
  stream request = false ->
  match invoke_model client (map_model_name (model request))
          (dumps float_repr (bedrock_request request)) with
  | inl e =>
      chat_completions float_repr now (Some (inr client)) request =
        HTTPException 500 (exc_str e)
  | inr response =>
      (texts_present response ->
         exists r,
           chat_completions float_repr now (Some (inr client)) request = Completion r /\
           resp_model r = model request /\
           message_content <$> choices r = [String.concat "" (text_blocks response)]) /\
      (~ texts_present response ->
         chat_completions float_repr now (Some (inr client)) request =
           HTTPException 500 "'text'")
  end.
Proof.
  intros Hs. unfold chat_completions. rewrite Hs.
  destruct (invoke_model client _ _) as [e | response]; simpl; [reflexivity |].
  unfold convert_to_openai_format, texts_present, text_blocks.
  destruct (resp_content response) as [blocks |]; simpl; split.
  - intros H. rewrite (concat_text_spec blocks "" H). simpl.
    eexists. split; [reflexivity |]. split; reflexivity.
  - intros H. now rewrite (concat_text_missing blocks "" H).
  - intros _. eexists. split; [reflexivity |]. split; reflexivity.
  - intros H. exfalso. apply H. constructor.
Qed.

Lemma completion_outcomes_witness :
  let response := {| resp_content := Some [ {| block_type := "text"; block_text := Some "he" |};
                                            {| block_type := "tool_use"; block_text := None |};
                                            {| block_type := "text"; block_text := Some "llo" |} ];
                     resp_usage := None |} in
  let client := {| invoke_model := fun _ _ => inr response;
                   invoke_model_with_response_stream := fun _ _ => inr None |} in
  let request := {| model := "gpt-4";
                    messages := [ {| role := "user"; content := "hi" |} ];
                    temperature := 1%float; max_tokens := None; stream := false;
                    top_p := None; stop := None |} in
  stream request = false /\
  texts_present response /\
  exists r,
    chat_completions repr_example now_example (Some (inr client)) request = Completion r /\
    resp_model r = "gpt-4" /\
    message_content <$> choices r = ["hello"].
Proof.
  intros response client request.
  assert (Hp : texts_present response).
  { repeat constructor; simpl; intros H; try discriminate H; eauto. }
  split; [reflexivity |]. split; [exact Hp |].
  exact (proj1 (completion_outcomes repr_example now_example client request eq_refl) Hp).
Defined.

(** *** The model name mapper *)

(** X19.  The provider is only ever called with the client's own model
    name, when that name contains the namespace marker, or with one of
    the two ids of the alias table, both of which contain the marker;
    a name that is changed by the mapper did not contain it. *)
Theorem map_model_name_range (x : string) :
  (map_model_name x = x /\ str_contains namespace_marker x = true) \/
  (str_contains namespace_marker x = false /\
   (map_model_name x = "anthropic.claude-sonnet-4-5-20250929-v1:0" \/
    map_model_name x = "anthropic.claude-haiku-4-5-20251001-v1:0")).
Proof.
  unfold map_model_name.
  destruct (str_contains namespace_marker x) eqn:Hx; [now left |].
  right. split; [reflexivity |].
  destruct (model_mapping !! x) as [v |] eqn:Hv; simpl; [| now left].
  unfold model_mapping in Hv.
  repeat (apply lookup_insert_Some in Hv as [[_ <-] | [_ Hv]]; [auto; fail |]).
  now rewrite lookup_empty in Hv.
Qed.

End GatewayMoreFacts.

(* ===================================================================== *)
(** ** More on the credential resolver and its clients *)
(* ===================================================================== *)

Module AuthMoreFacts.
Import Py Auth AuthClients AuthFacts.

(** The method [authenticate] uses: the one given, or the detected one. *)
Definition chosen (w : world) (method : option AuthMethod) : AuthMethod :=
  match method with
  | Some m => m
  | None => _detect_auth_method w
  end.

(** The branch of [authenticate] for a method. *)
Definition branch (w : world) (m : AuthMethod) : M Session :=
  match m with
  | BEDROCK_API_KEY => _authenticate_with_api_key w
  | SSO_PROFILE => _authenticate_with_profile w
  | ENV_VARS => _authenticate_with_env_vars w
  | AWS_CLI => _authenticate_with_cli w
  end.

(** Whether the environment has what the branch of a method reads. *)
Definition signal_ok (w : world) (m : AuthMethod) : bool :=
  match m with
  | BEDROCK_API_KEY => present w "AWS_BEARER_TOKEN_BEDROCK"
  | SSO_PROFILE => present w "AWS_PROFILE"
  | ENV_VARS => present w "AWS_ACCESS_KEY_ID" && present w "AWS_SECRET_ACCESS_KEY"
  | AWS_CLI => true
  end.

(** The exception of a branch whose signal is missing: a [ValueError]
    with its message, or what [raise NoCredentialsError(msg)] ends in. *)
Definition missing_signal (m : AuthMethod) : pyexc :=
  match m with
  | BEDROCK_API_KEY =>
      PyExc ValueError "AWS_BEARER_TOKEN_BEDROCK environment variable not set"
  | SSO_PROFILE => PyExc ValueError "AWS_PROFILE environment variable not set"
  | _ => NoCredentialsError_positional
           "AWS_ACCESS_KEY_ID and AWS_SECRET_ACCESS_KEY must be set"
  end.

(** The arguments the branch of a method builds its session from. *)
Definition session_args (w : world) (m : AuthMethod) (r : string) : Session :=
  match m with
  | ENV_VARS =>
      {| profile_name := None;
         aws_access_key_id := getenv w "AWS_ACCESS_KEY_ID";
         aws_secret_access_key := getenv w "AWS_SECRET_ACCESS_KEY";
         region_name := default r (getenv w "AWS_REGION") |}
  | SSO_PROFILE =>
      {| profile_name := getenv w "AWS_PROFILE";
         aws_access_key_id := None;
         aws_secret_access_key := None;
         region_name := r |}
  | _ =>
      {| profile_name := None; aws_access_key_id := None;
         aws_secret_access_key := None; region_name := r |}
  end.

(** The identity checks a branch makes on the session it builds. *)
Definition branch_checks (m : AuthMethod) : nat :=
  match m with
  | ENV_VARS => 0
  | _ => 1
  end.

Ltac run_monad :=
  unfold mbind, mget, mput, mret, mraise, except_raise, new_session, sts_identity;
  simpl.

Lemma truthy_some (o : option string) :
  opt_str_truthy o = true -> exists c s, o = Some (String c s).
Proof. destruct o as [[| c s] |]; try discriminate. eauto. Qed.

(** A branch whose signal is missing raises before anything else. *)
Lemma branch_missing (w : world) (m : AuthMethod) (s : state) :
  signal_ok w m = false -> branch w m s = (inl (missing_signal m), s).
Proof.
  destruct m; simpl; try discriminate; unfold present; intros H.
  - unfold _authenticate_with_env_vars. run_monad.
    apply andb_false_iff in H as [-> | ->]; simpl; [reflexivity |].
    now rewrite orb_true_r.
  - unfold _authenticate_with_profile. run_monad.
    destruct (getenv w "AWS_PROFILE") as [[| c p] |]; try reflexivity. discriminate.
  - unfold _authenticate_with_api_key. now rewrite H.
Qed.

(** A branch leaves the object as it is, builds its session from the
    arguments of its method, and on success has made its identity checks
    on that session and nothing else. *)
Lemma branch_run (w : world) (m : AuthMethod) (s : state) (r : result Session) (s' : state) :
  signal_ok w m = true ->
  branch w m s = (r, s') ->
  self s' = self s /\
  (forall session, r = inr session ->
     session = session_args w m (region (self s)) /\
     sts_calls s' = sts_calls s ++ repeat session (branch_checks m)) /\
  (forall e, r = inl e -> exists n, (n <= branch_checks m)%nat /\
     sts_calls s' =
       sts_calls s ++ repeat (session_args w m (region (self s))) n).
Proof.
  intros Hok Hrun.
  assert (Hcli : forall r s', _authenticate_with_cli w s = (r, s') ->
    self s' = self s /\
    (forall session, r = inr session ->
       session = session_args w AWS_CLI (region (self s)) /\
       sts_calls s' = sts_calls s ++ [session]) /\
    (forall e, r = inl e -> exists n, (n <= 1)%nat /\
       sts_calls s' = sts_calls s ++ repeat (session_args w AWS_CLI (region (self s))) n)).
  { clear. intros r s'. unfold _authenticate_with_cli. run_monad.
    destruct (session_error w _) as [e |]; simpl.
    - intros H.
      assert (Hs : s' = s) by (destruct (exc_class_eqb _ _); now injection H).
      subst s'. split; [reflexivity |]. split.
      + intros session ->. destruct (exc_class_eqb _ _); discriminate H.
      + intros e' _. exists 0%nat. split; [lia |]. simpl. now rewrite app_nil_r.
    - destruct (get_caller_identity w _ _) as [e | id]; simpl.
      + intros H.
        assert (Hs : s' = {| self := self s; sts_calls := sts_calls s ++
                      [session_args w AWS_CLI (region (self s))] |})
          by (destruct (exc_class_eqb _ _); now injection H).
        subst s'. split; [reflexivity |]. split.
        * intros session ->. destruct (exc_class_eqb _ _); discriminate H.
        * intros e' _. exists 1%nat. split; [lia | reflexivity].
      + intros H. injection H as <- <-. split; [reflexivity |]. split.
        * intros session E. injection E as <-. split; reflexivity.
        * intros e' E. discriminate E. }
  destruct m; simpl in *.
  - exact (Hcli r s' Hrun).
  - unfold present in Hok. apply andb_true_iff in Hok as [Ha Hs].
    unfold _authenticate_with_env_vars in Hrun. revert Hrun. run_monad.
    rewrite Ha, Hs. simpl.
    destruct (session_error w _) as [e |]; simpl; intros H; injection H as <- <-.
    + split; [reflexivity |]. split; [intros session E; discriminate E |].
      intros e' _. exists 0%nat. split; [lia |]. simpl. now rewrite app_nil_r.
    + split; [reflexivity |]. split; [| intros e' E; discriminate E].
      intros session E. injection E as <-. split; [reflexivity |].
      simpl. now rewrite app_nil_r.
  - unfold present in Hok. apply truthy_some in Hok as [c [p Hp]].
    unfold _authenticate_with_profile in Hrun. revert Hrun. run_monad.
    rewrite Hp.
    destruct (session_error w _) as [e |]; simpl.
    + intros H.
      assert (Hs : s' = s) by (destruct (exc_class_eqb _ _); now injection H).
      subst s'. split; [reflexivity |]. split.
      * intros session ->. destruct (exc_class_eqb _ _); discriminate H.
      * intros e' _. exists 0%nat. split; [lia |]. simpl. now rewrite app_nil_r.
    + destruct (get_caller_identity w _ _) as [e | id]; simpl.
      * intros H.
        assert (Hs : s' = {| self := self s; sts_calls := sts_calls s ++
                      [{| profile_name := Some (String c p); aws_access_key_id := None;
                          aws_secret_access_key := None;
                          region_name := region (self s) |}] |})
          by (destruct (exc_class_eqb _ _); now injection H).
        subst s'. split; [reflexivity |]. split.
        -- intros session ->. destruct (exc_class_eqb _ _); discriminate H.
        -- intros e' _. exists 1%nat. split; [lia | reflexivity].
      * intros H. injection H as <- <-. split; [reflexivity |]. split.
        -- intros session E. injection E as <-. split; reflexivity.
        -- intros e' E. discriminate E.
  - unfold _authenticate_with_api_key in Hrun. unfold present in Hok.
    rewrite Hok in Hrun. exact (Hcli r s' Hrun).
Qed.

(** The object with its method set, as [authenticate] leaves it before
    it runs the branch. *)
Definition with_method (s : state) (m : AuthMethod) : state :=
  {| self := {| region := region (self s);
                _session := _session (self s);
                _method := Some m |};
     sts_calls := sts_calls s |}.

(** The object with its session set, as [authenticate] leaves it after
    the branch. *)
Definition with_session (s : state) (session : Session) : state :=
  {| self := {| region := region (self s);
                _session := Some session;
                _method := _method (self s) |};
     sts_calls := sts_calls s |}.

Lemma build_session_branch (w : world) (method : option AuthMethod) (s0 : state) :
  build_session w method s0 =
  match branch w (chosen w method) (with_method s0 (chosen w method)) with
  | (inl e, s') => (inl e, s')
  | (inr session, s') => (inr session, with_session s' session)
  end.
Proof.
  unfold build_session, branch, chosen, with_method, with_session. run_monad.
  destruct method as [m |]; [destruct m | destruct (_detect_auth_method w)];
    match goal with
    | |- context [match ?b ?s with _ => _ end] => now destruct (b s) as [[e | sess] s']
    end.
Qed.

(** Auto-detection picks a method whose signal is there. *)
Lemma detect_signal_ok (w : world) : signal_ok w (_detect_auth_method w) = true.
Proof.
  unfold _detect_auth_method, signal_ok, present.
  destruct (opt_str_truthy (getenv w "AWS_BEARER_TOKEN_BEDROCK")); [reflexivity |].
  destruct (opt_str_truthy (getenv w "AWS_PROFILE")); [reflexivity |].
  destruct (opt_str_truthy (getenv w "AWS_ACCESS_KEY_ID")
            && opt_str_truthy (getenv w "AWS_SECRET_ACCESS_KEY")); reflexivity.
Qed.

Lemma repeat_snoc {A} (x : A) (n : nat) : repeat x n ++ [x] = repeat x (S n).
Proof. induction n as [| n IH]; simpl; [reflexivity | now rewrite IH]. Qed.

(** Every run of [authenticate]. *)
Lemma authenticate_run (w : world) (method : option AuthMethod)
    (s0 : state) (r : result Session) (s2 : state) :
  authenticate w method s0 = (r, s2) ->
  region (self s2) = region (self s0) /\
  _method (self s2) = Some (chosen w method) /\
  (forall session, r = inr session ->
     signal_ok w (chosen w method) = true /\
     session = session_args w (chosen w method) (region (self s0)) /\
     _session (self s2) = Some session /\
     sts_calls s2 =
       sts_calls s0 ++ repeat session (S (branch_checks (chosen w method)))) /\
  (forall e, r = inl e ->
     (_session (self s2) = _session (self s0) /\
      exists n, (n <= branch_checks (chosen w method))%nat /\
        sts_calls s2 = sts_calls s0 ++
          repeat (session_args w (chosen w method) (region (self s0))) n) \/
     (_session (self s2) =
        Some (session_args w (chosen w method) (region (self s0))) /\
      sts_calls s2 = sts_calls s0 ++
        repeat (session_args w (chosen w method) (region (self s0)))
               (S (branch_checks (chosen w method))))).
Proof.
  set (m := chosen w method). intros Hrun.
  unfold authenticate, mbind in Hrun. rewrite build_session_branch in Hrun. fold m in Hrun.
  destruct (signal_ok w m) eqn:Hok.
  - destruct (branch w m (with_method s0 m)) as [[e | session] s1] eqn:Hb.
    + injection Hrun as <- <-.
      destruct (branch_run w m _ _ _ Hok Hb) as (Hself & _ & Hfail).
      rewrite Hself. simpl. repeat split; try discriminate.
      intros e' _. left. split; [reflexivity |].
      destruct (Hfail e eq_refl) as [n [Hn Hcalls]]. exists n. split; [exact Hn | exact Hcalls].
    + destruct (branch_run w m _ _ _ Hok Hb) as (Hself & Hsucc & _).
      destruct (Hsucc session eq_refl) as [Hargs Hcalls]. simpl in Hargs, Hcalls.
      rewrite (verify_credentials_run w (with_session s1 session) session eq_refl) in Hrun.
      simpl in Hrun.
      assert (Hc2 : sts_calls (after_check (with_session s1 session) session) =
                    sts_calls s0 ++ repeat session (S (branch_checks m))).
      { simpl. rewrite Hcalls, <- app_assoc. now rewrite repeat_snoc. }
      destruct (get_caller_identity w (length (sts_calls s1)) session) as [e | id];
        injection Hrun as <- <-; simpl in *; rewrite Hself; simpl;
        (split; [reflexivity |]); (split; [reflexivity |]); split.
      * intros session' E. discriminate E.
      * intros e' _. right. rewrite <- Hargs. split; [reflexivity | exact Hc2].
      * intros session' E. injection E as <-. repeat split; assumption.
      * intros e' E. discriminate E.
  - rewrite (branch_missing w m _ Hok) in Hrun. injection Hrun as <- <-. simpl.
    repeat split; try discriminate.
    intros e' _. left. split; [reflexivity |]. exists 0%nat. split; [lia |].
    simpl. now rewrite app_nil_r.
Qed.

(** X6.  A successful [authenticate] has called the identity endpoint on
    the session it returns and on nothing else: twice for the CLI, SSO
    profile and API key methods (once in the branch, once to verify),
    once for the environment-variable method. *)
Theorem authenticate_identity_checks (w : world) (method : option AuthMethod)
    (s0 s2 : state) (session : Session) :
  authenticate w method s0 = (inr session, s2) ->
  sts_calls s2 =
    sts_calls s0 ++
    match chosen w method with
    | ENV_VARS => [session]
    | _ => [session; session]
    end.
Proof.
  intros H.
  destruct (authenticate_run w method s0 _ _ H) as (_ & _ & Hsucc & _).
  destruct (Hsucc session eq_refl) as (_ & _ & _ & Hcalls).
  rewrite Hcalls. now destruct (chosen w method).
Qed.

Definition world_env_vars : world :=
  {| environ := <["AWS_ACCESS_KEY_ID" := "AKIA"]>
                (<["AWS_SECRET_ACCESS_KEY" := "secret"]>
                (<["AWS_REGION" := "eu-west-1"]> ∅));
     session_error := fun _ => None;
     get_caller_identity := fun _ _ => inr ∅ |}.

Definition session_eu : Session :=
  {| profile_name := None; aws_access_key_id := Some "AKIA";
     aws_secret_access_key := Some "secret"; region_name := "eu-west-1" |}.

Lemma authenticate_identity_checks_witness :
  authenticate world_env_vars None (init "us-east-1") =
    (inr session_eu,
     {| self := {| region := "us-east-1"; _session := Some session_eu;
                   _method := Some ENV_VARS |};
        sts_calls := [session_eu] |}) /\
  sts_calls (snd (authenticate world_env_vars None (init "us-east-1"))) = [session_eu].
Proof.
  assert (H : authenticate world_env_vars None (init "us-east-1") =
    (inr session_eu,
     {| self := {| region := "us-east-1"; _session := Some session_eu;
                   _method := Some ENV_VARS |};
        sts_calls := [session_eu] |})) by (vm_compute; reflexivity).
  split; [exact H |].
  pose proof (authenticate_identity_checks world_env_vars None _ _ _ H) as Hc.
  rewrite H. exact Hc.
Defined.

(** The run of the CLI branch, from the region and the calls made so far. *)
Definition cli_outcome (w : world) (r : string) (calls : list Session)
    : result Session * list Session :=
  let args := session_args w AWS_CLI r in
  let cli_error e :=
    if exc_class_eqb (exc_type e) NoCredentialsError
    then NoCredentialsError_positional
           "AWS CLI credentials not found. Run 'aws configure' or set environment variables."
    else e in
  match session_error w args with
  | Some e => (inl (cli_error e), calls)
  | None =>
      match get_caller_identity w (length calls) args with
      | inl e => (inl (cli_error e), calls ++ [args])
      | inr _ => (inr args, calls ++ [args])
      end
  end.

Lemma cli_run (w : world) (s : state) :
  _authenticate_with_cli w s =
  (fst (cli_outcome w (region (self s)) (sts_calls s)),
   {| self := self s; sts_calls := snd (cli_outcome w (region (self s)) (sts_calls s)) |}).
Proof.
  unfold _authenticate_with_cli, cli_outcome. run_monad.
  destruct (session_error w _) as [e |]; simpl.
  - destruct s. now destruct (exc_class_eqb _ _).
  - destruct (get_caller_identity w _ _) as [e | id]; simpl; [| reflexivity].
    now destruct (exc_class_eqb _ _).
Qed.

(** X7.  With the bearer token set, the API key method is the CLI method
    under another name: [authenticate] has the same outcome, makes the
    same identity checks and stores the same session, which is built
    from the region alone; the token is not used.  Only the recorded
    method differs. *)
Theorem api_key_is_cli (w : world) (s0 : state) :
  present w "AWS_BEARER_TOKEN_BEDROCK" = true ->
  fst (authenticate w (Some BEDROCK_API_KEY) s0) = fst (authenticate w (Some AWS_CLI) s0) /\
  sts_calls (snd (authenticate w (Some BEDROCK_API_KEY) s0)) =
    sts_calls (snd (authenticate w (Some AWS_CLI) s0)) /\
  _session (self (snd (authenticate w (Some BEDROCK_API_KEY) s0))) =
    _session (self (snd (authenticate w (Some AWS_CLI) s0))) /\
  (forall session,
     fst (authenticate w (Some BEDROCK_API_KEY) s0) = inr session ->
     session = {| profile_name := None; aws_access_key_id := None;
                  aws_secret_access_key := None; region_name := region (self s0) |}).
Proof.
  intros Htok. unfold present in Htok.
  assert (Hrun : forall m, m = BEDROCK_API_KEY \/ m = AWS_CLI ->
    authenticate w (Some m) s0 =
    match cli_outcome w (region (self s0)) (sts_calls s0) with
    | (inl e, calls) => (inl e, {| self := self (with_method s0 m); sts_calls := calls |})
    | (inr session, calls) =>
        (match get_caller_identity w (length calls) session with
         | inl e => inl (verify_error e)
         | inr _ => inr session
         end,
         {| self := {| region := region (self s0); _session := Some session;
                       _method := Some m |};
            sts_calls := calls ++ [session] |})
    end).
  { intros m Hm. unfold authenticate, mbind. rewrite build_session_branch.
    assert (Hb : branch w (chosen w (Some m)) (with_method s0 (chosen w (Some m))) =
                 _authenticate_with_cli w (with_method s0 m)).
    { destruct Hm as [-> | ->]; simpl; [| reflexivity].
      unfold _authenticate_with_api_key. now rewrite Htok. }
    rewrite Hb, cli_run. simpl.
    destruct (cli_outcome w (region (self s0)) (sts_calls s0)) as [[e | session] calls];
      simpl; [reflexivity |].
    rewrite verify_credentials_run with (session := session) by reflexivity. simpl.
    now destruct (get_caller_identity w (length calls) session). }
  rewrite (Hrun BEDROCK_API_KEY (or_introl eq_refl)), (Hrun AWS_CLI (or_intror eq_refl)).
  destruct (cli_outcome w (region (self s0)) (sts_calls s0)) as [[e | session] calls] eqn:Hc;
    simpl; repeat split; try discriminate.
  intros session' E.
  assert (Hs : session = session_args w AWS_CLI (region (self s0))).
  { unfold cli_outcome in Hc.
    destruct (session_error w _); [destruct (exc_class_eqb _ _); discriminate Hc |].
    destruct (get_caller_identity w (length (sts_calls s0)) _);
      [destruct (exc_class_eqb _ _); discriminate Hc |].
    now injection Hc as <- _. }
  destruct (get_caller_identity w (length calls) session); [discriminate E |].
  injection E as <-. exact Hs.
Qed.

Definition world_token : world :=
  {| environ := <["AWS_BEARER_TOKEN_BEDROCK" := "token"]> ∅;
     session_error := fun _ => None;
     get_caller_identity := fun _ _ => inr ∅ |}.

Lemma api_key_is_cli_witness :
  present world_token "AWS_BEARER_TOKEN_BEDROCK" = true /\
  fst (authenticate world_token (Some BEDROCK_API_KEY) (init "us-east-1")) =
    inr {| profile_name := None; aws_access_key_id := None;
           aws_secret_access_key := None; region_name := "us-east-1" |} /\
  fst (authenticate world_token (Some BEDROCK_API_KEY) (init "us-east-1")) =
    fst (authenticate world_token (Some AWS_CLI) (init "us-east-1")).
Proof.
  split; [reflexivity |]. split; [vm_compute; reflexivity |].
  exact (proj1 (api_key_is_cli world_token (init "us-east-1") eq_refl)).
Defined.

(** *** The clients *)

(** With a session in the object, the client methods go straight to
    [session.client]: no identity check, no change of the object. *)
Lemma client_from_session (w : world)
    (client_error : Session -> string -> string -> option pyexc)
    (s : state) (session : Session) :
  _session (self s) = Some session ->
  get_bedrock_client w client_error s =
    (match client_error session "bedrock-runtime" (region (self s)) with
     | Some e => inl e
     | None => inr {| service_name := "bedrock-runtime"; client_session := session;
                      client_region := region (self s) |}
     end, s) /\
  get_bedrock_control_client w client_error s =
    (match client_error session "bedrock" (region (self s)) with
     | Some e => inl e
     | None => inr {| service_name := "bedrock"; client_session := session;
                      client_region := region (self s) |}
     end, s).
Proof.
  intros H. unfold get_bedrock_client, get_bedrock_control_client, session_client.
  run_monad. rewrite H. simpl. rewrite H.
  split; now destruct (client_error session _ _).
Qed.

(** X8.  A session whose verification failed stays in the object: after
    [authenticate] has raised for that reason (the exception of the check,
    or for a [ClientError] the [TypeError] its handler ends in),
    [get_bedrock_client] returns a client on that very session, without a
    new identity check and without raising. *)
Theorem unverified_session_is_served (w : world)
    (client_error : Session -> string -> string -> option pyexc)
    (method : option AuthMethod) (s0 s1 : state) (session : Session) (e : pyexc) :
  build_session w method s0 = (inr session, s1) ->
  get_caller_identity w (length (sts_calls s1)) session = inl e ->
  client_error session "bedrock-runtime" (region (self s0)) = None ->
  fst (authenticate w method s0) = inl (verify_error e) /\
  get_bedrock_client w client_error (snd (authenticate w method s0)) =
    (inr {| service_name := "bedrock-runtime"; client_session := session;
            client_region := region (self s0) |},
     snd (authenticate w method s0)).
Proof.
  intros Hb He Hce.
  pose proof (build_session_stores w method s0 s1 session Hb) as Hs.
  assert (Ha : authenticate w method s0 = (inl (verify_error e), after_check s1 session)).
  { unfold authenticate, mbind. rewrite Hb.
    rewrite (verify_credentials_run w s1 session Hs), He. reflexivity. }
  destruct (authenticate_run w method s0 _ _ Ha) as (Hreg & _).
  rewrite Ha. simpl. split; [reflexivity |].
  destruct (client_from_session w client_error (after_check s1 session) session Hs)
    as [Hc _].
  rewrite Hc. simpl in *. now rewrite Hreg, Hce.
Qed.

(** The access-key pair is set and the identity check answers with a
    [ClientError]. *)
Lemma unverified_session_is_served_witness :
  let w := world_denied_from 0 in
  let s1 := snd (build_session w (Some ENV_VARS) (init "us-east-1")) in
  build_session w (Some ENV_VARS) (init "us-east-1") = (inr session_env_vars, s1) /\
  get_caller_identity w (length (sts_calls s1)) session_env_vars = inl denied /\
  fst (authenticate w (Some ENV_VARS) (init "us-east-1")) =
    inl (PyExc TypeError
           "BotoCoreError.__init__() takes 1 positional argument but 2 were given") /\
  fst (get_bedrock_client w (fun _ _ _ => None)
         (snd (authenticate w (Some ENV_VARS) (init "us-east-1")))) =
    inr {| service_name := "bedrock-runtime"; client_session := session_env_vars;
           client_region := "us-east-1" |}.
Proof.
  intros w s1.
  assert (Hb : build_session w (Some ENV_VARS) (init "us-east-1") =
               (inr session_env_vars, s1)) by (vm_compute; reflexivity).
  destruct (unverified_session_is_served w (fun _ _ _ => None) (Some ENV_VARS)
              (init "us-east-1") s1 session_env_vars denied Hb eq_refl eq_refl)
    as [Ha Hc].
  split; [exact Hb |]. split; [reflexivity |]. split; [exact Ha |]. now rewrite Hc.
Defined.

(** X9.  After a successful [authenticate], both client methods return a
    client on the session it returned, created for the region of the
    object; they make no identity check and leave the object as it is. *)
Theorem clients_reuse_session (w : world)
    (client_error : Session -> string -> string -> option pyexc)
    (method : option AuthMethod) (s0 s2 : state) (session : Session) :
  authenticate w method s0 = (inr session, s2) ->
  (forall service, client_error session service (region (self s0)) = None) ->
  get_bedrock_client w client_error s2 =
    (inr {| service_name := "bedrock-runtime"; client_session := session;
            client_region := region (self s0) |}, s2) /\
  get_bedrock_control_client w client_error s2 =
    (inr {| service_name := "bedrock"; client_session := session;
            client_region := region (self s0) |}, s2).
Proof.
  intros Ha Hce.
  destruct (authenticate_run w method s0 _ _ Ha) as (Hreg & _ & Hsucc & _).
  destruct (Hsucc session eq_refl) as (_ & _ & Hs & _).
  destruct (client_from_session w client_error s2 session Hs) as [H1 H2].
  rewrite H1, H2, Hreg, !Hce. split; reflexivity.
Qed.

(** The start of the gateway, then the two clients. *)
Lemma clients_reuse_session_witness :
  let s2 := snd (initialize_authenticator world_env_vars "us-east-1") in
  initialize_authenticator world_env_vars "us-east-1" = (inr session_eu, s2) /\
  sts_calls s2 = [session_eu] /\
  get_bedrock_client world_env_vars (fun _ _ _ => None) s2 =
    (inr {| service_name := "bedrock-runtime"; client_session := session_eu;
            client_region := "us-east-1" |}, s2) /\
  get_bedrock_control_client world_env_vars (fun _ _ _ => None) s2 =
    (inr {| service_name := "bedrock"; client_session := session_eu;
            client_region := "us-east-1" |}, s2).
Proof.
  intros s2.
  assert (H : initialize_authenticator world_env_vars "us-east-1" = (inr session_eu, s2))
    by (vm_compute; reflexivity).
  split; [exact H |]. split; [vm_compute; reflexivity |].
  exact (clients_reuse_session world_env_vars (fun _ _ _ => None) None
           (get_authenticator "us-east-1") s2 session_eu H (fun _ => eq_refl)).
Defined.

(** X10.  [authenticate] records the method it used whether it returns
    or raises: the one given, else the detected one; and it never
    changes the region of the object.  A client method called on an
    object without session authenticates by detection, whatever method
    the object recorded before. *)
Theorem method_is_recorded (w : world)
    (client_error : Session -> string -> string -> option pyexc)
    (method : option AuthMethod) (s0 : state) :
  _method (self (snd (authenticate w method s0))) =
    Some (match method with Some m => m | None => _detect_auth_method w end) /\
  region (self (snd (authenticate w method s0))) = region (self s0) /\
  (_session (self s0) = None ->
   _method (self (snd (get_bedrock_client w client_error s0))) =
     Some (_detect_auth_method w)).
Proof.
  destruct (authenticate w method s0) as [r s2] eqn:Ha.
  destruct (authenticate_run w method s0 r s2 Ha) as (Hreg & Hm & _).
  split; [exact Hm |]. split; [exact Hreg |].
  intros Hnone. unfold get_bedrock_client, session_client. run_monad. rewrite Hnone.
  destruct (authenticate w None s0) as [[e | session] s3] eqn:Hb;
    destruct (authenticate_run w None s0 _ s3 Hb) as (_ & Hm3 & Hsucc & _); simpl.
  - exact Hm3.
  - destruct (Hsucc session eq_refl) as (_ & _ & Hs & _). rewrite Hs.
    now destruct (client_error session "bedrock-runtime" (region (self s3))).
Qed.

(** X11.  A client method on a fresh object: the session is built as the
    detected method builds it, so under the environment-variable method
    its region is [AWS_REGION] when that is set, while the client is
    created for the region of the object. *)
Theorem client_region_is_the_objects (w : world)
    (client_error : Session -> string -> string -> option pyexc)
    (r : string) (c : boto_client) (s : state) :
  get_bedrock_client w client_error (get_authenticator r) = (inr c, s) ->
  client_region c = r /\
  client_session c = session_args w (_detect_auth_method w) r /\
  (_detect_auth_method w = ENV_VARS ->
   region_name (client_session c) = default r (getenv w "AWS_REGION")) /\
  (_detect_auth_method w <> ENV_VARS -> region_name (client_session c) = r).
Proof.
  unfold get_bedrock_client, session_client, get_authenticator. run_monad.
  destruct (authenticate w None (init r)) as [[e | session] s3] eqn:Ha;
    [discriminate |].
  destruct (authenticate_run w None (init r) _ s3 Ha) as (Hreg & _ & Hsucc & _).
  destruct (Hsucc session eq_refl) as (_ & Hargs & Hs & _). simpl in *.
  rewrite Hs, Hreg.
  destruct (client_error session "bedrock-runtime" r); [discriminate |].
  intros H. injection H as <- <-. simpl. rewrite Hargs.
  split; [reflexivity |]. split; [reflexivity |]. split.
  - now intros ->.
  - intros Hne. destruct (_detect_auth_method w); try reflexivity. now contradiction Hne.
Qed.

Lemma client_region_is_the_objects_witness :
  let run := get_bedrock_client world_env_vars (fun _ _ _ => None)
               (get_authenticator "us-east-1") in
  fst run = inr {| service_name := "bedrock-runtime"; client_session := session_eu;
                   client_region := "us-east-1" |} /\
  region_name session_eu = "eu-west-1".
Proof.
  intros run.
  assert (H : run = (inr {| service_name := "bedrock-runtime"; client_session := session_eu;
                            client_region := "us-east-1" |}, snd run))
    by (vm_compute; reflexivity).
  destruct (client_region_is_the_objects world_env_vars (fun _ _ _ => None)
              "us-east-1" _ _ H) as (_ & _ & Henv & _).
  split; [now rewrite H |]. exact (Henv eq_refl).
Defined.

(** X12.  A method given explicitly whose environment signal is missing
    fails before any call to AWS and leaves the session of the object as
    it was: with [ValueError] for the SSO profile and the API key
    methods, and for the environment-variable method with the [TypeError]
    that [raise NoCredentialsError(msg)] ends in, not with
    [NoCredentialsError].  Detection never chooses a method whose signal
    is missing. *)
Theorem missing_signal_fails_early (w : world) (m : AuthMethod) (s0 : state) :
  (signal_ok w m = false ->
   authenticate w (Some m) s0 = (inl (missing_signal m), with_method s0 m)) /\
  signal_ok w (_detect_auth_method w) = true /\
  exc_type (missing_signal ENV_VARS) = TypeError /\
  exc_type (missing_signal SSO_PROFILE) = ValueError /\
  exc_type (missing_signal BEDROCK_API_KEY) = ValueError.
Proof.
  split; [| split; [apply detect_signal_ok | repeat split]].
  intros H. unfold authenticate, mbind. rewrite build_session_branch. simpl.
  now rewrite (branch_missing w m _ H).
Qed.

Lemma missing_signal_fails_early_witness :
  let w := {| environ := <["AWS_ACCESS_KEY_ID" := "AKIA"]> ∅;
              session_error := fun _ => None;
              get_caller_identity := fun _ _ => inr ∅ |} in
  signal_ok w ENV_VARS = false /\
  authenticate w (Some ENV_VARS) (init "us-east-1") =
    (inl (PyExc TypeError
            "BotoCoreError.__init__() takes 1 positional argument but 2 were given"),
     {| self := {| region := "us-east-1"; _session := None; _method := Some ENV_VARS |};
        sts_calls := [] |}).
Proof.
  intros w. split; [reflexivity |].
  exact (proj1 (missing_signal_fails_early w ENV_VARS (init "us-east-1")) eq_refl).
Defined.

End AuthMoreFacts.

(* ===================================================================== *)
(** ** More on the usage tracker *)
(* ===================================================================== *)

Module TrackerMoreFacts.
Import Py Tracker TrackerQueries TrackerFacts.

(** A call of [record_usage]: model id, input tokens, output tokens. *)
Definition call : Type := string * Z * Z.

Definition in_range (c : call) : Prop :=
  0 <= snd (fst c) < 2 ^ 53 /\ 0 <= snd c < 2 ^ 53.

(** A sequence of calls on one tracker; each call reads the clock twice. *)
Fixpoint record_all (utcnow : nat -> string) (t : nat) (tr : UsageTracker)
    (calls : list call) : UsageTracker :=
  match calls with
  | [] => tr
  | (model, input, output) :: rest =>
      record_all utcnow (S (S t))
        (snd (record_usage utcnow t tr model input output)) rest
  end.

(** The derived fields of the two kinds of entry. *)
Definition usage_ok (u : TokenUsage) : Prop :=
  total_tokens u = input_tokens u + output_tokens u.

Definition cost_ok (c : CostMetrics) : Prop :=
  total_cost c = PrimFloat.add (input_cost c) (output_cost c).

(** One call below the limit of the division, spelled out. *)
Lemma record_usage_run (utcnow : nat -> string) (t : nat) (tr : UsageTracker)
    (model : string) (input output : Z) :
  0 <= input < token_limit ->
  0 <= output < token_limit ->
  exists u c,
    record_usage utcnow t tr model input output =
      (inr (u, c),
       {| log_group := log_group tr;
          usage_history := usage_history tr ++ [u];
          cost_history := cost_history tr ++ [c] |}) /\
    input_tokens u = input /\ output_tokens u = output /\
    usage_timestamp u = utcnow t /\ cost_timestamp c = utcnow (S t) /\
    model_id c = model /\ usage_ok u /\ cost_ok c.
Proof.
  intros Hi Ho.
  unfold record_usage. rewrite (calculate_cost_total model input output Hi Ho). unfold ret.
  eexists. eexists. split; [reflexivity |].
  repeat split; unfold cost_ok, new_CostMetrics; simpl.
  destruct (PRICING !! model); [destruct (String.eqb model sonnet_id) |]; simpl;
    now destruct (float_truthy _).
Qed.

(** X13.  The two logs are append-only and stay aligned: after any
    sequence of calls with token counts in range, each log is the log it
    was followed by one entry for each call, in the order of the calls;
    the entries carry the token counts and the model ids of the calls. *)
Theorem logs_are_append_only (utcnow : nat -> string) (calls : list call) :
  Forall in_range calls ->
  forall (t : nat) (tr : UsageTracker),
  exists usages costs,
    usage_history (record_all utcnow t tr calls) = usage_history tr ++ usages /\
    cost_history (record_all utcnow t tr calls) = cost_history tr ++ costs /\
    log_group (record_all utcnow t tr calls) = log_group tr /\
    map (fun u => (input_tokens u, output_tokens u)) usages =
      map (fun c : call => (snd (fst c), snd c)) calls /\
    map model_id costs = map (fun c : call => fst (fst c)) calls.
Proof.
  intros H. pose proof token_limit_large as Hlarge.
  induction H as [| [[model input] output] calls [Hin Hout] _ IH]; intros t tr.
  - exists [], []. simpl. now rewrite !app_nil_r.
  - simpl in Hin, Hout. simpl.
    destruct (record_usage_run utcnow t tr model input output)
      as (u & c & Hrec & Hi & Ho & _ & _ & Hm & _); [lia | lia |].
    rewrite Hrec. simpl.
    destruct (IH (S (S t)) {| log_group := log_group tr;
                              usage_history := usage_history tr ++ [u];
                              cost_history := cost_history tr ++ [c] |})
      as (usages & costs & Hu & Hc & Hg & Hmu & Hmc).
    exists (u :: usages), (c :: costs). simpl in *.
    rewrite Hu, Hc, <- !app_assoc, Hi, Ho, Hm, Hmu, Hmc. repeat split. exact Hg.
Qed.

(** The two calls of the example script. *)
Lemma logs_are_append_only_witness :
  let calls := [ (sonnet_id, 1000, 500); (haiku_id, 500, 200) ] in
  let tr := record_all (fun _ => "2025-01-18T00:00:00") 0
              {| log_group := None; usage_history := []; cost_history := [] |} calls in
  Forall in_range calls /\
  map (fun u => (input_tokens u, output_tokens u)) (usage_history tr) =
    [(1000, 500); (500, 200)] /\
  map model_id (cost_history tr) = [sonnet_id; haiku_id].
Proof.
  intros calls tr.
  assert (H : Forall in_range calls) by (repeat constructor; simpl; lia).
  split; [exact H |].
  destruct (logs_are_append_only (fun _ => "2025-01-18T00:00:00") calls H 0
              {| log_group := None; usage_history := []; cost_history := [] |})
    as (usages & costs & Hu & Hc & _ & Hmu & Hmc).
  fold tr in Hu, Hc. simpl in Hu, Hc. rewrite Hu, Hc. split; assumption.
Defined.

(** *** Calls of any size *)

(** The cost [_calculate_cost] returns has its total the sum of its parts. *)
Lemma calculate_cost_sum (model : string) (input output : Z) (k : cost) :
  _calculate_cost model input output = inr k ->
  cost_total k = PrimFloat.add (cost_input k) (cost_output k).
Proof.
  unfold _calculate_cost, bind, ret.
  destruct (subscript PRICING haiku_id) as [e | fallback]; [discriminate |].
  destruct (int_true_div input 1000000) as [e | x]; [discriminate |].
  destruct (subscript _ "input") as [e | price_in]; [discriminate |].
  destruct (int_true_div output 1000000) as [e | y]; [discriminate |].
  destruct (subscript _ "output") as [e | price_out]; [discriminate |].
  intros H. injection H as <-. reflexivity.
Qed.

(** One call with any token counts, whether it returns or raises: the
    usage entry is appended; the cost entry is appended when the call
    returns and left out when it raises. *)
Lemma record_usage_any (utcnow : nat -> string) (t : nat) (tr : UsageTracker)
    (model : string) (input output : Z) :
  let tr' := snd (record_usage utcnow t tr model input output) in
  usage_history tr' = usage_history tr ++ [new_TokenUsage (utcnow t) input output] /\
  ((exists e, fst (record_usage utcnow t tr model input output) = inl e /\
              cost_history tr' = cost_history tr) \/
   (exists u c, fst (record_usage utcnow t tr model input output) = inr (u, c) /\
                cost_history tr' = cost_history tr ++ [c] /\ cost_ok c)).
Proof.
  unfold record_usage.
  destruct (_calculate_cost model input output) as [e | k] eqn:Hk; simpl.
  - split; [reflexivity |]. left. now exists e.
  - split; [reflexivity |]. right. eexists. eexists.
    split; [reflexivity |]. split; [reflexivity |].
    unfold cost_ok, new_CostMetrics. simpl.
    destruct (float_truthy (cost_total k)); [| reflexivity].
    exact (calculate_cost_sum model input output k Hk).
Qed.

(** The invariants of the two logs hold after any sequence of calls. *)
Lemma record_all_any (utcnow : nat -> string) (calls : list call) :
  forall (t : nat) (tr : UsageTracker),
  Forall usage_ok (usage_history tr) ->
  Forall cost_ok (cost_history tr) ->
  Forall usage_ok (usage_history (record_all utcnow t tr calls)) /\
  Forall cost_ok (cost_history (record_all utcnow t tr calls)) /\
  (exists usages,
     usage_history (record_all utcnow t tr calls) = usage_history tr ++ usages /\
     length usages = length calls /\
     Forall (fun u => exists n, usage_timestamp u = utcnow n) usages).
Proof.
  induction calls as [| [[model input] output] calls IH]; intros t tr Hu Hc.
  - simpl. split; [exact Hu |]. split; [exact Hc |].
    exists []. rewrite app_nil_r. repeat split. constructor.
  - simpl.
    destruct (record_usage_any utcnow t tr model input output) as [Hus Hcs].
    destruct (IH (S (S t)) (snd (record_usage utcnow t tr model input output)))
      as (Hu' & Hc' & usages & Heq & Hlen & Hts).
    + rewrite Hus. apply Forall_app. split; [exact Hu |].
      repeat constructor.
    + destruct Hcs as [(e & _ & ->) | (u & c & _ & -> & Hok)]; [exact Hc |].
      apply Forall_app. split; [exact Hc | now repeat constructor].
    + split; [exact Hu' |]. split; [exact Hc' |].
      exists (new_TokenUsage (utcnow t) input output :: usages).
      rewrite Heq, Hus, <- app_assoc. simpl. split; [reflexivity |].
      split; [now rewrite Hlen |].
      constructor; [now exists t | exact Hts].
Qed.

(** *** Windowed totals *)

Section Window.

Variable fromisoformat : string -> result Z.

#[local] Abbreviation recent_usage := (TrackerQueries.recent_usage fromisoformat).
#[local] Abbreviation get_total_usage := (TrackerQueries.get_total_usage fromisoformat).

(** Every timestamp of the history is one [fromisoformat] reads. *)
Definition parses_all (history : list TokenUsage) : Prop :=
  Forall (fun u => exists ts, fromisoformat (usage_timestamp u) = inr ts) history.

(** The entry is at or after the cutoff. *)
Definition in_window (cutoff : Z) (u : TokenUsage) : bool :=
  match fromisoformat (usage_timestamp u) with
  | inr ts => cutoff <=? ts
  | inl _ => false
  end.

(** The window is one [timedelta] and [datetime] can express. *)
Definition valid_window (utcnow days : Z) : Prop :=
  Z.abs days <= 999999999 /\
  0 <= utcnow - days * microseconds_per_day <= datetime_max.

Lemma recent_usage_filter (cutoff : Z) (history : list TokenUsage) :
  parses_all history ->
  recent_usage cutoff history = ret (List.filter (in_window cutoff) history).
Proof.
  intros H. induction H as [| u history [ts Hts] _ IH]; [reflexivity |].
  simpl. unfold in_window at 1. rewrite Hts, IH. simpl.
  now destruct (cutoff <=? ts).
Qed.

Lemma recent_usage_returns (cutoff : Z) (history l : list TokenUsage) :
  recent_usage cutoff history = inr l -> parses_all history.
Proof.
  revert l. induction history as [| u history IH]; intros l; [constructor |].
  simpl. destruct (fromisoformat (usage_timestamp u)) as [e | ts] eqn:Hts;
    [discriminate |]. simpl.
  destruct (recent_usage cutoff history) as [e | l'] eqn:Hr; [discriminate |].
  intros _. constructor; [now exists ts | exact (IH l' eq_refl)].
Qed.

Lemma window_run (utcnow days : Z) :
  valid_window utcnow days ->
  bind (timedelta_days days) (datetime_sub utcnow) =
    ret (utcnow - days * microseconds_per_day).
Proof.
  intros [Hd [Hlo Hhi]]. unfold timedelta_days, datetime_sub, bind, ret.
  destruct (Z.leb_spec (Z.abs days) 999999999); [| lia].
  destruct (Z.leb_spec 0 (utcnow - days * microseconds_per_day)); [| lia].
  destruct (Z.leb_spec (utcnow - days * microseconds_per_day) datetime_max); [| lia].
  reflexivity.
Qed.

Lemma window_fails (utcnow days : Z) :
  ~ valid_window utcnow days ->
  exists msg, bind (timedelta_days days) (datetime_sub utcnow) =
              raise (PyExc (OtherError "OverflowError") msg).
Proof.
  intros H. unfold timedelta_days, datetime_sub, bind, ret, raise, valid_window in *.
  destruct (Z.leb_spec (Z.abs days) 999999999); [| eauto].
  destruct (Z.leb_spec 0 (utcnow - days * microseconds_per_day)); [| simpl; eauto].
  destruct (Z.leb_spec (utcnow - days * microseconds_per_day) datetime_max);
    [| simpl; eauto].
  exfalso. apply H. lia.
Qed.

Lemma fold_sum (f : TokenUsage -> Z) (l : list TokenUsage) (a : Z) :
  fold_left (fun acc u => acc + f u) l a = a + sum_of f l.
Proof.
  unfold sum_of. revert a. induction l as [| u l IH]; intros a; simpl; [lia |].
  rewrite IH, (IH (0 + f u)). lia.
Qed.

Lemma sum_of_total (l : list TokenUsage) :
  Forall usage_ok l ->
  sum_of total_tokens l = sum_of input_tokens l + sum_of output_tokens l.
Proof.
  intros H. induction H as [| u l Hu _ IH]; [reflexivity |].
  unfold sum_of in *. simpl. rewrite !fold_sum. unfold sum_of.
  rewrite IH, Hu. lia.
Qed.

(** X15.  For a window that [datetime] can express and a history whose
    timestamps parse, [get_total_usage] returns the totals of the entries
    whose timestamp is at or after [now - days], the boundary instant
    included: their number, and the sums of their token fields; when the
    entries have their derived total right, the reported total is the
    sum of the reported input and output totals. *)
Theorem total_usage_over_window (utcnow : Z) (tr : UsageTracker) (days : Z) :
  valid_window utcnow days ->
  parses_all (usage_history tr) ->
  let cutoff := utcnow - days * microseconds_per_day in
  let recent := List.filter (in_window cutoff) (usage_history tr) in
  exists r,
    get_total_usage utcnow tr days = inr r /\
    r !! "period_days" = Some days /\
    r !! "request_count" = Some (Z.of_nat (length recent)) /\
    r !! "total_input_tokens" = Some (sum_of input_tokens recent) /\
    r !! "total_output_tokens" = Some (sum_of output_tokens recent) /\
    (forall u, In u (usage_history tr) ->
       fromisoformat (usage_timestamp u) = inr cutoff -> In u recent) /\
    (Forall usage_ok (usage_history tr) ->
       r !! "total_tokens" =
         Some (sum_of input_tokens recent + sum_of output_tokens recent)).
Proof.
  intros Hv Hp cutoff recent.
  pose proof (window_run utcnow days Hv) as Hw.
  unfold TrackerQueries.get_total_usage.
  unfold bind in Hw. unfold bind.
  destruct (timedelta_days days) as [e | delta]; [discriminate Hw |].
  rewrite Hw. unfold ret. fold cutoff.
  rewrite (recent_usage_filter cutoff _ Hp). unfold ret. fold recent.
  eexists. split; [reflexivity |].
  repeat split.
  - intros u Hin Hts. apply filter_In. split; [exact Hin |].
    unfold in_window. rewrite Hts. apply Z.leb_refl.
  - intros Hok. rewrite !lookup_insert_ne by discriminate. rewrite lookup_insert_eq.
    f_equal. apply sum_of_total.
    apply Forall_forall. intros u Hu. apply list_elem_of_In, filter_In in Hu as [Hu _].
    exact (proj1 (Forall_forall _ _) Hok u (proj2 (list_elem_of_In _ _) Hu)).
Qed.

Lemma filter_length_mono (p q : TokenUsage -> bool) (l : list TokenUsage) :
  (forall u, p u = true -> q u = true) ->
  (length (List.filter p l) <= length (List.filter q l))%nat.
Proof.
  intros H. induction l as [| u l IH]; simpl; [lia |].
  destruct (p u) eqn:Hp; [rewrite (H u Hp); simpl; lia |].
  destruct (q u); simpl; lia.
Qed.

(** X16.  A longer window never counts fewer requests: when
    [get_total_usage] returns for [days] and for [days'] with
    [days <= days'], the request count for [days] is at most the one
    for [days']. *)
Theorem longer_window_counts_more (utcnow : Z) (tr : UsageTracker) (days days' : Z)
    (r r' : gmap string Z) :
  get_total_usage utcnow tr days = inr r ->
  get_total_usage utcnow tr days' = inr r' ->
  days <= days' ->
  exists n n',
    r !! "request_count" = Some n /\ r' !! "request_count" = Some n' /\ n <= n'.
Proof.
  unfold TrackerQueries.get_total_usage, timedelta_days, datetime_sub, bind, ret.
  destruct (Z.abs days <=? 999999999); [| discriminate].
  destruct (_ && _); [| discriminate].
  destruct (Z.abs days' <=? 999999999); [| discriminate].
  destruct (_ && _); [| discriminate].
  destruct (recent_usage (utcnow - days * microseconds_per_day) (usage_history tr))
    as [e | l] eqn:Hl; [discriminate |].
  destruct (recent_usage (utcnow - days' * microseconds_per_day) (usage_history tr))
    as [e | l'] eqn:Hl'; [discriminate |].
  intros Hr Hr' Hle. injection Hr as <-. injection Hr' as <-.
  pose proof (recent_usage_returns _ _ _ Hl) as Hp.
  rewrite recent_usage_filter in Hl by exact Hp.
  rewrite recent_usage_filter in Hl' by exact Hp.
  injection Hl as <-. injection Hl' as <-.
  eexists. eexists. split; [reflexivity |]. split; [reflexivity |].
  apply inj_le, filter_length_mono. intros u. unfold in_window.
  destruct (fromisoformat (usage_timestamp u)) as [e | ts]; [discriminate |].
  unfold microseconds_per_day. intros H. apply Z.leb_le in H. apply Z.leb_le. lia.
Qed.

(** X17.  A window that [timedelta] or [datetime] cannot express makes
    [get_total_usage] raise [OverflowError], whatever the history holds:
    more than 999999999 days either way, or a cutoff before the year 1
    or after the year 9999. *)
Theorem window_out_of_range_raises (utcnow : Z) (tr : UsageTracker) (days : Z) :
  999999999 < Z.abs days \/
  utcnow - days * microseconds_per_day < 0 \/
  datetime_max < utcnow - days * microseconds_per_day ->
  exists msg,
    get_total_usage utcnow tr days = inl (PyExc (OtherError "OverflowError") msg).
Proof.
  intros H.
  destruct (window_fails utcnow days) as [msg Hw].
  { unfold valid_window. lia. }
  exists msg. unfold TrackerQueries.get_total_usage.
  unfold bind, raise in *.
  destruct (timedelta_days days) as [e | delta]; [now injection Hw as -> |].
  now rewrite Hw.
Qed.

(** X14.  The totals that [get_total_usage] reports add up for every
    tracker that [record_usage] has written: start from logs whose entries
    have their derived totals right and whose timestamps parse, make any
    sequence of calls with token counts of any size (calls that raise
    included) on a clock whose readings parse, and ask for a window that
    [datetime] can express; then [get_total_usage] returns, and its total
    is the sum of its input and output totals.  The entries of both logs
    keep their totals equal to the sum of their parts, and a call that
    raises leaves its usage entry behind. *)
Theorem recorded_totals_add_up (utcnow : nat -> string) (calls : list call)
    (t : nat) (tr : UsageTracker) (clock days : Z) :
  Forall usage_ok (usage_history tr) ->
  Forall cost_ok (cost_history tr) ->
  parses_all (usage_history tr) ->
  (forall n, exists ts, fromisoformat (utcnow n) = inr ts) ->
  valid_window clock days ->
  let tr' := record_all utcnow t tr calls in
  Forall usage_ok (usage_history tr') /\
  Forall cost_ok (cost_history tr') /\
  length (usage_history tr') = (length (usage_history tr) + length calls)%nat /\
  exists r i o,
    get_total_usage clock tr' days = inr r /\
    r !! "total_input_tokens" = Some i /\
    r !! "total_output_tokens" = Some o /\
    r !! "total_tokens" = Some (i + o).
Proof.
  intros Hu Hc Hp Hclock Hv tr'.
  destruct (record_all_any utcnow calls t tr Hu Hc) as (Hu' & Hc' & usages & Heq & Hlen & Hts).
  fold tr' in Hu', Hc', Heq.
  split; [exact Hu' |]. split; [exact Hc' |].
  split; [now rewrite Heq, length_app, Hlen |].
  assert (Hp' : parses_all (usage_history tr')).
  { rewrite Heq. apply Forall_app. split; [exact Hp |].
    apply Forall_forall. intros u Hin.
    destruct (proj1 (Forall_forall _ _) Hts u Hin) as [n ->]. apply Hclock. }
  pose proof (window_run clock days Hv) as Hw.
  unfold TrackerQueries.get_total_usage.
  unfold bind in Hw. unfold bind.
  destruct (timedelta_days days) as [e | delta]; [discriminate Hw |].
  rewrite Hw. unfold ret.
  rewrite (recent_usage_filter _ _ Hp'). unfold ret.
  eexists. eexists. eexists. split; [reflexivity |].
  split; [now rewrite !lookup_insert_ne by discriminate; rewrite lookup_insert_eq |].
  split; [now rewrite !lookup_insert_ne by discriminate; rewrite lookup_insert_eq |].
  rewrite !lookup_insert_ne by discriminate. rewrite lookup_insert_eq.
  f_equal. apply sum_of_total.
  apply Forall_forall. intros u Hin. apply list_elem_of_In, filter_In in Hin as [Hin _].
  exact (proj1 (Forall_forall _ _) Hu' u (proj2 (list_elem_of_In _ _) Hin)).
Qed.

End Window.

(** The clock of the examples: 2025-01-18T00:00:00, and an hour later. *)
Definition day_2025_01_18 : Z := 63872755200000000.

Definition parse_example (s : string) : result Z :=
  if String.eqb s "2025-01-18T00:00:00" then inr day_2025_01_18
  else if String.eqb s "2025-01-17T00:00:00" then inr (day_2025_01_18 - 86400000000)
  else inl (PyExc ValueError ("Invalid isoformat string: '" +:+ s +:+ "'")).

Definition tracker_example : UsageTracker :=
  {| log_group := None;
     usage_history :=
       [ {| input_tokens := 1000; output_tokens := 500; total_tokens := 1500;
            usage_timestamp := "2025-01-17T00:00:00" |};
         {| input_tokens := 500; output_tokens := 200; total_tokens := 700;
            usage_timestamp := "2025-01-18T00:00:00" |} ];
     cost_history := [] |}.

(** A window of one day, asked at the instant of the later entry: the
    entry exactly one day old is counted. *)
Lemma total_usage_over_window_witness :
  valid_window day_2025_01_18 1 /\
  parses_all parse_example (usage_history tracker_example) /\
  exists r,
    get_total_usage parse_example day_2025_01_18 tracker_example 1 = inr r /\
    r !! "request_count" = Some 2 /\
    r !! "total_tokens" = Some 2200.
Proof.
  assert (Hv : valid_window day_2025_01_18 1) by (unfold valid_window; cbv; repeat split; discriminate).
  assert (Hp : parses_all parse_example (usage_history tracker_example))
    by (repeat constructor; eexists; reflexivity).
  split; [exact Hv |]. split; [exact Hp |].
  destruct (total_usage_over_window parse_example day_2025_01_18 tracker_example 1 Hv Hp)
    as (r & Hr & _ & Hn & _ & _ & _ & Ht).
  exists r. split; [exact Hr |]. split; [exact Hn |].
  apply Ht. repeat constructor.
Defined.

Lemma longer_window_counts_more_witness :
  exists r r' n n',
    get_total_usage parse_example day_2025_01_18 tracker_example 0 = inr r /\
    get_total_usage parse_example day_2025_01_18 tracker_example 30 = inr r' /\
    r !! "request_count" = Some n /\ r' !! "request_count" = Some n' /\ n <= n'.
Proof.
  assert (H0 : get_total_usage parse_example day_2025_01_18 tracker_example 0 =
               inr (fst (sum_rect (fun _ => (gmap string Z * unit)%type)
                           (fun _ => (∅, tt)) (fun r => (r, tt))
                           (get_total_usage parse_example day_2025_01_18 tracker_example 0))))
    by (vm_compute; reflexivity).
  assert (H30 : get_total_usage parse_example day_2025_01_18 tracker_example 30 =
               inr (fst (sum_rect (fun _ => (gmap string Z * unit)%type)
                           (fun _ => (∅, tt)) (fun r => (r, tt))
                           (get_total_usage parse_example day_2025_01_18 tracker_example 30))))
    by (vm_compute; reflexivity).
  assert (Hle : 0 <= 30) by lia.
  destruct (longer_window_counts_more parse_example day_2025_01_18 tracker_example
              0 30 _ _ H0 H30 Hle) as (n & n' & Hn & Hn' & Hnn).
  eexists. eexists. exists n, n'.
  split; [exact H0 |]. split; [exact H30 |]. split; [exact Hn |]. split; assumption.
Defined.

(** A window of a million days reaches before the year 1. *)
Lemma window_out_of_range_raises_witness :
  (day_2025_01_18 - 1000000 * microseconds_per_day < 0) /\
  exists msg,
    get_total_usage parse_example day_2025_01_18 tracker_example 1000000 =
      inl (PyExc (OtherError "OverflowError") msg).
Proof.
  assert (H : day_2025_01_18 - 1000000 * microseconds_per_day < 0) by reflexivity.
  split; [exact H |].
  exact (window_out_of_range_raises parse_example day_2025_01_18 tracker_example 1000000
           (or_intror (or_introl H))).
Defined.

(** A tracker with an entry in each log, then three calls of which the
    second overflows: five usage entries, three cost entries, and totals
    that add up. *)
Definition tracker_recorded : UsageTracker :=
  record_all (fun _ => "2025-01-17T00:00:00") 0
    {| log_group := None; usage_history := []; cost_history := [] |}
    [ (sonnet_id, 1000, 500); (haiku_id, 500, 200) ].

Lemma recorded_totals_add_up_witness :
  let utcnow := fun _ : nat => "2025-01-18T00:00:00" in
  let calls := [ (sonnet_id, 1000, 500); ("x", 10 ^ 400, 1); (haiku_id, 500, 200) ] in
  let tr' := record_all utcnow 0 tracker_recorded calls in
  length (usage_history tracker_recorded) = 2%nat /\
  length (cost_history tracker_recorded) = 2%nat /\
  Forall usage_ok (usage_history tracker_recorded) /\
  Forall cost_ok (cost_history tracker_recorded) /\
  parses_all parse_example (usage_history tracker_recorded) /\
  valid_window day_2025_01_18 1 /\
  length (usage_history tr') = 5%nat /\
  length (cost_history tr') = 4%nat /\
  Forall usage_ok (usage_history tr') /\
  Forall cost_ok (cost_history tr') /\
  exists r i o,
    get_total_usage parse_example day_2025_01_18 tr' 1 = inr r /\
    r !! "total_input_tokens" = Some i /\
    r !! "total_output_tokens" = Some o /\
    r !! "total_tokens" = Some (i + o).
Proof.
  intros utcnow calls tr'.
  assert (Hu : Forall usage_ok (usage_history tracker_recorded))
    by (repeat constructor).
  assert (Hc : Forall cost_ok (cost_history tracker_recorded))
    by (repeat constructor; vm_compute; reflexivity).
  assert (Hp : parses_all parse_example (usage_history tracker_recorded))
    by (repeat constructor; eexists; reflexivity).
  assert (Hclock : forall n : nat, exists ts, parse_example (utcnow n) = inr ts)
    by (intros n; eexists; reflexivity).
  assert (Hv : valid_window day_2025_01_18 1)
    by (unfold valid_window; cbv; repeat split; discriminate).
  destruct (recorded_totals_add_up parse_example utcnow calls 0 tracker_recorded
              day_2025_01_18 1 Hu Hc Hp Hclock Hv) as (Hu' & Hc' & Hlen & Hr).
  split; [reflexivity |]. split; [vm_compute; reflexivity |].
  split; [exact Hu |]. split; [exact Hc |]. split; [exact Hp |]. split; [exact Hv |].
  split; [exact Hlen |]. split; [vm_compute; reflexivity |].
  split; [exact Hu' |]. split; [exact Hc' |]. exact Hr.
Defined.

End TrackerMoreFacts.

(* ===================================================================== *)
(** ** The model listing endpoint *)
(* ===================================================================== *)

Module EndpointFacts.
Import Py Json Endpoints.

(** The entry [list_models] makes for a model id, the clock read at [t]. *)
Definition model_entry (now : nat -> Z) (t : nat) (id : json) : json :=
  JObj [ ("id", id); ("object", JStr "model");
         ("created", JInt (now t)); ("owned_by", JStr "anthropic") ].

Fixpoint entries_from (now : nat -> Z) (t : nat) (ids : list json) : list json :=
  match ids with
  | [] => []
  | id :: rest => model_entry now t id :: entries_from now (S t) rest
  end.

Lemma model_entries_ok (now : nat -> Z) (summaries ids : list json) :
  Forall2 (fun m id => py_getitem m "modelId" = inr id) summaries ids ->
  forall t, model_entries now t summaries = ret (entries_from now t ids).
Proof.
  intros H. induction H as [| m id summaries ids Hm _ IH]; intros t; [reflexivity |].
  simpl. rewrite Hm. simpl. now rewrite IH.
Qed.

Lemma model_entries_missing (now : nat -> Z) (pre post ids : list json) (m : json) (e : pyexc) :
  Forall2 (fun m id => py_getitem m "modelId" = inr id) pre ids ->
  py_getitem m "modelId" = inl e ->
  forall t, model_entries now t (pre ++ m :: post) = raise e.
Proof.
  intros H Hm. induction H as [| m' id pre ids Hm' _ IH]; intros t; simpl.
  - now rewrite Hm.
  - rewrite Hm'. simpl. now rewrite IH.
Qed.

(** X18.  [list_models] on a response of the control plane: one entry
    for each model summary, in the order of the summaries, with the
    summary's [modelId] as its id and [anthropic] as its owner; an empty
    list when the response has no [modelSummaries]; and when a summary
    has no [modelId], [HTTPException] 500 with the text of the
    [KeyError], none of the other models being returned. *)
Theorem list_models_maps_summaries (now : nat -> Z) (client : control_client)
    (items : list (string * json)) :
  list_foundation_models client (Some "Anthropic") = inr (JObj items) ->
  (lookup_item "modelSummaries" items = None ->
   list_models now (Some (inr client)) =
     Body (JObj [("object", JStr "list"); ("data", JArr [])])) /\
  (forall summaries ids,
     lookup_item "modelSummaries" items = Some (JArr summaries) ->
     Forall2 (fun m id => py_getitem m "modelId" = inr id) summaries ids ->
     list_models now (Some (inr client)) =
       Body (JObj [("object", JStr "list"); ("data", JArr (entries_from now 0 ids))]) /\
     length ids = length summaries) /\
  (forall pre ids fields post,
     lookup_item "modelSummaries" items = Some (JArr (pre ++ JObj fields :: post)) ->
     Forall2 (fun m id => py_getitem m "modelId" = inr id) pre ids ->
     lookup_item "modelId" fields = None ->
     list_models now (Some (inr client)) = HTTPError 500 "'modelId'").
Proof.
  intros Hresp. unfold list_models. simpl. rewrite Hresp. simpl.
  split; [| split].
  - intros ->. reflexivity.
  - intros summaries ids -> H. simpl.
    rewrite (model_entries_ok now summaries ids H 0). simpl.
    split; [reflexivity |]. symmetry. exact (Forall2_length _ _ _ H).
  - intros pre ids fields post -> H Hnone. simpl.
    rewrite (model_entries_missing now pre post ids (JObj fields)
               (PyExc KeyError "'modelId'") H); [reflexivity |].
    simpl. now rewrite Hnone.
Qed.

Lemma list_models_maps_summaries_witness :
  let summary id := JObj [("modelArn", JStr "arn"); ("modelId", JStr id)] in
  let items := [("modelSummaries", JArr [summary "anthropic.a"; summary "anthropic.b"])] in
  let client := {| list_foundation_models := fun _ => inr (JObj items) |} in
  list_foundation_models client (Some "Anthropic") = inr (JObj items) /\
  list_models (fun n => 1700000000 + Z.of_nat n) (Some (inr client)) =
    Body (JObj [ ("object", JStr "list");
                 ("data", JArr [ JObj [ ("id", JStr "anthropic.a"); ("object", JStr "model");
                                        ("created", JInt 1700000000);
                                        ("owned_by", JStr "anthropic") ];
                                 JObj [ ("id", JStr "anthropic.b"); ("object", JStr "model");
                                        ("created", JInt 1700000001);
                                        ("owned_by", JStr "anthropic") ] ]) ]).
Proof.
  intros summary items client. split; [reflexivity |].
  destruct (list_models_maps_summaries (fun n => 1700000000 + Z.of_nat n) client items
              eq_refl) as (_ & Hmap & _).
  refine (proj1 (Hmap [summary "anthropic.a"; summary "anthropic.b"]
                   [JStr "anthropic.a"; JStr "anthropic.b"] eq_refl _)).
  repeat constructor.
Defined.

End EndpointFacts.
